(** * Movie service: the cache-aside protocol of [movie-service/main.py]

    The handlers of the movie service read and write two collaborators: a
    PostgreSQL table [movies] reached through psycopg2, and a Redis cache
    reached through [redis_client].  This development embeds the handlers
    as state-passing functions over a [world] holding both collaborators
    and a chronological [trace] of every call made to them, and proves the
    protocol properties of the service on that embedding. *)

From stdpp Require Import gmap strings list fin_maps pretty.
From Stdlib Require Import Ascii QArith Qround Lqa.

#[local] Set Warnings "-register-all".
#[local] Open Scope string_scope.
#[local] Open Scope Z_scope.

(** ** Values *)

(** A value of the column [rating DECIMAL(3, 1)]: psycopg2 hands it over as
    a [Decimal] with exactly one fractional digit, kept here as the number
    of tenths. *)
Record Decimal := mkDecimal { tenths : Z }.

(** [str(Decimal)] at scale one: sign, integer part, point, one digit. *)
Definition str_Decimal (d : Decimal) : string :=
  (if (tenths d <? 0)%Z then "-" else "")
  +:+ pretty (Z.to_N (Z.abs (tenths d) / 10)%Z)
  +:+ "."
  +:+ pretty (Z.to_N (Z.abs (tenths d) mod 10)%Z).

(** The Python values the handlers return. *)
Inductive pyval :=
| PyNone
| PyInt (n : Z)
| PyStr (s : string)
| PyDecimal (d : Decimal)
| PyList (xs : list pyval)
| PyDict (items : list (string * pyval)).

(** A JSON document, as Redis holds it.  The text that [json.dumps] writes
    and [json.loads] reads back is the json module's own business; the
    document is kept as its tree. *)
Inductive json :=
| JNull
| JNum (n : Z)
| JString (s : string)
| JArray (xs : list json)
| JObject (members : list (string * json)).

(** [json.dumps(v, default=str)]: a [Decimal] is not serialisable, so the
    [default] hook turns it into the string [str(d)]. *)
Fixpoint json_dumps (v : pyval) : json :=
  match v with
  | PyNone => JNull
  | PyInt n => JNum n
  | PyStr s => JString s
  | PyDecimal d => JString (str_Decimal d)
  | PyList xs => JArray (map json_dumps xs)
  | PyDict items => JObject (map (λ kv, match kv with (k, x) => (k, json_dumps x) end) items)
  end.

(** [json.loads]. *)
Fixpoint json_loads (j : json) : pyval :=
  match j with
  | JNull => PyNone
  | JNum n => PyInt n
  | JString s => PyStr s
  | JArray xs => PyList (map json_loads xs)
  | JObject members => PyDict (map (λ kv, match kv with (k, x) => (k, json_loads x) end) members)
  end.

(** ** The table [movies] *)

(** The columns of a row besides its key [id SERIAL PRIMARY KEY]. *)
Record columns := mkColumns {
  c_title : string;      (* VARCHAR(200) NOT NULL *)
  c_director : string;   (* VARCHAR(100) NOT NULL *)
  c_year : Z;            (* INTEGER NOT NULL *)
  c_genre : string;      (* VARCHAR(50) NOT NULL *)
  c_rating : option Decimal  (* DECIMAL(3, 1) *)
}.

(** A row as [RealDictCursor] returns it. *)
Record RealDictRow := mkRow { row_id : Z; row_cols : columns }.

(** [dict(row)]: the keys in column order. *)
Definition dict (r : RealDictRow) : pyval :=
  PyDict [ ("id", PyInt (row_id r));
           ("title", PyStr (c_title (row_cols r)));
           ("director", PyStr (c_director (row_cols r)));
           ("year", PyInt (c_year (row_cols r)));
           ("genre", PyStr (c_genre (row_cols r)));
           ("rating", match c_rating (row_cols r) with
                      | Some d => PyDecimal d
                      | None => PyNone
                      end) ].

(** The request body [class Movie(BaseModel)].  A Python float reaches the
    store as the decimal literal psycopg2 writes for it; [rating] is the
    rational that literal denotes. *)
Record Movie := mkMovie {
  id : option Z;
  title : string;
  director : string;
  year : Z;
  genre : string;
  rating : option Q
}.

(** [class BatchMovieRequest(BaseModel)]. *)
Record BatchMovieRequest := mkBatch { movie_ids : list Z }.

(** Assignment to [DECIMAL(3, 1)]: round to one fractional digit, ties away
    from zero; three digits of precision, else "numeric field overflow". *)
Definition round_tenths (q : Q) : Z :=
  let t := (q * (10 # 1))%Q in
  if Qle_bool 0 t then Qfloor (t + (1 # 2))%Q
  else - Qfloor (- t + (1 # 2))%Q.

Definition numeric_3_1 (q : Q) : option Decimal :=
  let t := round_tenths q in
  if Z.abs t <? 1000 then Some (mkDecimal t) else None.

(** The statements the handlers send, with their bound parameters. *)
Inductive query :=
| INSERT_RETURNING (title director : string) (year : Z) (genre : string) (rating : option Q)
| SELECT_WHERE_id_ANY (ids : list Z)
| SELECT_WHERE_genre (genre : string)
| SELECT_ALL
| SELECT_WHERE_id (movie_id : Z)
| UPDATE_RETURNING (title director : string) (year : Z) (genre : string) (rating : option Q) (movie_id : Z)
| DELETE_RETURNING_id (movie_id : Z).

(** Coercion of the bound parameters to the column types; [None] is the
    data error the store reports when a value does not fit. *)
Definition coerce_columns (title director : string) (year : Z) (genre : string)
    (rating : option Q) : option columns :=
  if negb (String.length title <=? 200)%nat then None
  else if negb (String.length director <=? 100)%nat then None
  else if negb ((- 2147483648 <=? year) && (year <=? 2147483647)) then None
  else if negb (String.length genre <=? 50)%nat then None
  else match rating with
       | None => Some (mkColumns title director year genre None)
       | Some q => match numeric_3_1 q with
                   | Some d => Some (mkColumns title director year genre (Some d))
                   | None => None
                   end
       end.

(** ** The world: store, cache and trace *)

(** What the cache holds under a key: the document and the time-to-live
    it was stamped with. *)
Record entry := mkEntry { payload : json; ttl : Z }.

(** Every call to a collaborator, in the order made.  The flag of a store
    call tells whether the call came back normally. *)
Inductive event :=
| Connect (ok : bool)
| Execute (q : query) (ok : bool)
| Commit (ok : bool)
| Rollback
| Close
| RedisGet (key : string)
| RedisSetex (key : string) (seconds : Z) (value : json)
| RedisDelete (key : string).

Record world := mkWorld {
  table : gmap Z columns;          (* committed rows of [movies], by id *)
  movies_id_seq : Z;               (* next value of the SERIAL sequence *)
  conn : option (gmap Z columns);  (* open connection: the rows its transaction sees *)
  redis : gmap string entry;       (* the cache *)
  trace : list event
}.

Definition set_table (t : gmap Z columns) (w : world) : world :=
  mkWorld t (movies_id_seq w) (conn w) (redis w) (trace w).
Definition set_seq (n : Z) (w : world) : world :=
  mkWorld (table w) n (conn w) (redis w) (trace w).
Definition set_conn (c : option (gmap Z columns)) (w : world) : world :=
  mkWorld (table w) (movies_id_seq w) c (redis w) (trace w).
Definition set_redis (r : gmap string entry) (w : world) : world :=
  mkWorld (table w) (movies_id_seq w) (conn w) r (trace w).
Definition log (e : event) (w : world) : world :=
  mkWorld (table w) (movies_id_seq w) (conn w) (redis w) (trace w ++ [e])%list.

(** ** Exceptions and the handler monad *)

Inductive exn :=
| HTTPException (status_code : Z) (detail : string)
| OperationalError   (* the store is unreachable or drops the call *)
| DataError          (* a bound value does not fit its column *)
| IntegrityError     (* duplicate primary key *)
| InterfaceError     (* a cursor used without an open connection *)
| TypeError.         (* [dict(None)] *)

Inductive outcome (A : Type) :=
| Returned (a : A)
| Raised (e : exn).
Arguments Returned {A} a.
Arguments Raised {A} e.

(** A handler step: it returns or raises, and in both cases leaves a world
    behind (what was done before a [raise] stays done). *)
Definition M (A : Type) : Type := world → outcome A * world.

#[export] Instance M_ret : MRet M := λ A a w, (Returned a, w).
#[export] Instance M_bind : MBind M := λ A B f c w,
  match c w with
  | (Returned a, w1) => f a w1
  | (Raised e, w1) => (Raised e, w1)
  end.

Definition raise {A} (e : exn) : M A := λ w, (Raised e, w).

(** [try: c  except Exception as e: handler e]. *)
Definition try_except {A} (c : M A) (handler : exn → M A) : M A := λ w,
  match c w with
  | (Returned a, w1) => (Returned a, w1)
  | (Raised e, w1) => handler e w1
  end.

(** [try: c  finally: fin]. *)
Definition try_finally {A} (c : M A) (fin : M unit) : M A := λ w,
  match c w with
  | (Returned a, w1) =>
      match fin w1 with
      | (Returned _, w2) => (Returned a, w2)
      | (Raised e, w2) => (Raised e, w2)
      end
  | (Raised e, w1) =>
      match fin w1 with
      | (Returned _, w2) => (Raised e, w2)
      | (Raised e', w2) => (Raised e', w2)
      end
  end.

(** [for x in xs: s = body x s], the loop's local variables being [s]. *)
Fixpoint for_in {A S} (xs : list A) (body : A → S → M S) (s : S) : M S :=
  match xs with
  | [] => mret s
  | x :: rest => s' ← body x s; for_in rest body s'
  end.

(** ** The cache client [redis_client] *)

Definition CACHE_TTL : Z := 3600.

Definition redis_get (key : string) : M (option json) := λ w,
  (Returned (payload <$> redis w !! key), log (RedisGet key) w).

Definition redis_setex (key : string) (seconds : Z) (value : json) : M unit := λ w,
  (Returned (), log (RedisSetex key seconds value)
                    (set_redis (<[key := mkEntry value seconds]> (redis w)) w)).

Definition redis_delete (key : string) : M unit := λ w,
  (Returned (), log (RedisDelete key) (set_redis (delete key (redis w)) w)).

(** Generates a Redis cache key for a specific movie by ID. *)
Definition get_cache_key (movie_id : Z) : string := "movie:" +:+ pretty movie_id.

(** Returns the Redis cache key for the all-movies list. *)
Definition get_all_movies_cache_key : string := "movies:all".

(** ** The store *)

(** Where the store lets a handler down: each handler opens at most one
    connection, sends one statement and commits once. *)
Record faults := mkFaults {
  connect_fails : bool;
  execute_fails : bool;
  commit_fails : bool
}.

Definition no_faults : faults := mkFaults false false false.

(** The rows of a table in the order a scan yields them. *)
Definition scan (t : gmap Z columns) : list RealDictRow :=
  (λ kc, mkRow kc.1 kc.2) <$> map_to_list t.

(** The effect of a statement on the rows its transaction sees and on the
    sequence, and the rows it returns.  The sequence is not transactional:
    a value drawn stays drawn. *)
Definition run_query (q : query) (rows : gmap Z columns) (seq : Z)
    : Z * outcome (gmap Z columns * list RealDictRow) :=
  match q with
  | INSERT_RETURNING t d y g r =>
      match coerce_columns t d y g r with
      | None => (seq, Raised DataError)
      | Some c =>
          match rows !! seq with
          | Some _ => (seq + 1, Raised IntegrityError)
          | None => (seq + 1, Returned (<[seq := c]> rows, [mkRow seq c]))
          end
      end
  | SELECT_WHERE_id_ANY ids =>
      (seq, Returned (rows, filter (λ r, row_id r ∈ ids) (scan rows)))
  | SELECT_WHERE_genre g =>
      (seq, Returned (rows, filter (λ r, c_genre (row_cols r) = g) (scan rows)))
  | SELECT_ALL => (seq, Returned (rows, scan rows))
  | SELECT_WHERE_id i =>
      (seq, Returned (rows, match rows !! i with Some c => [mkRow i c] | None => [] end))
  | UPDATE_RETURNING t d y g r i =>
      match coerce_columns t d y g r with
      | None => (seq, Raised DataError)
      | Some c =>
          match rows !! i with
          | Some _ => (seq, Returned (<[i := c]> rows, [mkRow i c]))
          | None => (seq, Returned (rows, []))
          end
      end
  | DELETE_RETURNING_id i =>
      match rows !! i with
      | Some c => (seq, Returned (delete i rows, [mkRow i c]))
      | None => (seq, Returned (rows, []))
      end
  end.

(** [psycopg2.connect(DATABASE_URL)]. *)
Definition psycopg2_connect (fl : faults) : M unit := λ w,
  if connect_fails fl then (Raised OperationalError, log (Connect false) w)
  else (Returned (), log (Connect true) (set_conn (Some (table w)) w)).

(** [conn.commit()]: the rows of the transaction become the table. *)
Definition conn_commit (fl : faults) : M unit := λ w,
  if commit_fails fl then (Raised OperationalError, log (Commit false) w)
  else (Returned (),
        log (Commit true)
            (match conn w with Some rows => set_table rows w | None => w end)).

(** [conn.rollback()]: the transaction's rows are dropped. *)
Definition conn_rollback : M unit := λ w,
  (Returned (),
   log Rollback (match conn w with
                 | Some _ => set_conn (Some (table w)) w
                 | None => w
                 end)).

(** [conn.close()]. *)
Definition conn_close : M unit := λ w,
  (Returned (), log Close (set_conn None w)).

(** [cur.execute(q, params)] followed by reading the cursor. *)
Definition cur_execute (fl : faults) (q : query) : M (list RealDictRow) := λ w,
  match conn w with
  | None => (Raised InterfaceError, w)
  | Some rows =>
      if execute_fails fl then (Raised OperationalError, log (Execute q false) w)
      else
        match run_query q rows (movies_id_seq w) with
        | (seq, Raised e) => (Raised e, log (Execute q false) (set_seq seq w))
        | (seq, Returned (rows', result)) =>
            (Returned result,
             log (Execute q true) (set_conn (Some rows') (set_seq seq w)))
        end
  end.

(** [cur.fetchone()]: the first row, or [None]. *)
Definition fetchone (result : list RealDictRow) : option RealDictRow := head result.

(** Context manager that provides a database connection with automatic
    commit/rollback. *)
Definition get_db_connection {A} (fl : faults) (body : M A) : M A :=
  psycopg2_connect fl;;
  try_finally
    (try_except (a ← body; conn_commit fl;; mret a)
                (λ e, conn_rollback;; raise e))
    conn_close.

(** ** The handlers *)

(** Creates a new movie, caches it in Redis, and invalidates the all-movies
    cache. *)
Definition create_movie (fl : faults) (movie : Movie) : M pyval :=
  get_db_connection fl (
    result ← cur_execute fl
      (INSERT_RETURNING (title movie) (director movie) (year movie) (genre movie) (rating movie));
    match fetchone result with
    | None => raise TypeError
    | Some movie_data =>
        let cache_key := get_cache_key (row_id movie_data) in
        redis_setex cache_key CACHE_TTL (json_dumps (dict movie_data));;
        redis_delete get_all_movies_cache_key;;
        mret (dict movie_data)
    end).

(** Body of the first loop of [get_movies_batch]: probe the cache for one
    id; a hit joins [movies], a miss joins [uncached_ids]. *)
Definition probe_cache (movie_id : Z) (s : list pyval * list Z)
    : M (list pyval * list Z) :=
  let '(movies, uncached_ids) := s in
  let cache_key := get_cache_key movie_id in
  cached_data ← redis_get cache_key;
  match cached_data with
  | Some doc => mret ((movies ++ [json_loads doc])%list, uncached_ids)
  | None => mret (movies, (uncached_ids ++ [movie_id])%list)
  end.

(** Body of the second loop of [get_movies_batch]: append a fetched row and
    cache it. *)
Definition cache_fetched (movie_data : RealDictRow) (movies : list pyval)
    : M (list pyval) :=
  let movies := (movies ++ [dict movie_data])%list in
  let cache_key := get_cache_key (row_id movie_data) in
  redis_setex cache_key CACHE_TTL (json_dumps (dict movie_data));;
  mret movies.

(** Retrieves multiple movies by IDs using cache-aside pattern for
    efficiency. *)
Definition get_movies_batch (fl : faults) (request : BatchMovieRequest) : M (list pyval) :=
  match movie_ids request with
  | [] => mret []
  | _ :: _ =>
      found ← for_in (movie_ids request) probe_cache ([], []);
      let '(movies, uncached_ids) := found in
      match uncached_ids with
      | [] => mret movies
      | _ :: _ =>
          get_db_connection fl (
            results ← cur_execute fl (SELECT_WHERE_id_ANY uncached_ids);
            for_in results cache_fetched movies)
      end
  end.

(** Retrieves all movies or filters by genre.  Uses cache for unfiltered
    queries.  The test [if genre:] holds for a string that is not empty. *)
Definition get_movies (fl : faults) (genre : option string) : M pyval :=
  match genre with
  | Some (String _ _ as genre) =>
      get_db_connection fl (
        results ← cur_execute fl (SELECT_WHERE_genre genre);
        mret (PyList (dict <$> results)))
  | _ =>
      let cache_key := get_all_movies_cache_key in
      cached_data ← redis_get cache_key;
      match cached_data with
      | Some doc => mret (json_loads doc)
      | None =>
          get_db_connection fl (
            results ← cur_execute fl SELECT_ALL;
            let movies := PyList (dict <$> results) in
            redis_setex cache_key CACHE_TTL (json_dumps movies);;
            mret movies)
      end
  end.

(** Retrieves a single movie by ID using cache-aside pattern.  Returns 404
    if not found. *)
Definition get_movie (fl : faults) (movie_id : Z) : M pyval :=
  let cache_key := get_cache_key movie_id in
  cached_data ← redis_get cache_key;
  match cached_data with
  | Some doc => mret (json_loads doc)
  | None =>
      get_db_connection fl (
        result ← cur_execute fl (SELECT_WHERE_id movie_id);
        match fetchone result with
        | None => raise (HTTPException 404 "Movie not found")
        | Some movie_data =>
            redis_setex cache_key CACHE_TTL (json_dumps (dict movie_data));;
            mret (dict movie_data)
        end)
  end.

(** Updates a movie, refreshes its cache entry, and invalidates the
    all-movies cache. *)
Definition update_movie (fl : faults) (movie_id : Z) (movie : Movie) : M pyval :=
  get_db_connection fl (
    result ← cur_execute fl
      (UPDATE_RETURNING (title movie) (director movie) (year movie) (genre movie)
                        (rating movie) movie_id);
    match fetchone result with
    | None => raise (HTTPException 404 "Movie not found")
    | Some movie_data =>
        let cache_key := get_cache_key movie_id in
        redis_setex cache_key CACHE_TTL (json_dumps (dict movie_data));;
        redis_delete get_all_movies_cache_key;;
        mret (dict movie_data)
    end).

(** Deletes a movie, removes it from cache, and invalidates the all-movies
    cache. *)
Definition delete_movie (fl : faults) (movie_id : Z) : M pyval :=
  get_db_connection fl (
    result ← cur_execute fl (DELETE_RETURNING_id movie_id);
    match fetchone result with
    | None => raise (HTTPException 404 "Movie not found")
    | Some _ =>
        let cache_key := get_cache_key movie_id in
        redis_delete cache_key;;
        redis_delete get_all_movies_cache_key;;
        mret (PyDict [("message", PyStr "Movie deleted successfully")])
    end).

(** ** The response model

    The handlers are declared with [response_model=Movie]: what a caller
    receives is the handler's value validated into [Movie].  Only the
    conversions that rows and cached rows go through are kept: an int from
    an int, a str from a str, a float from an int, from a [Decimal] or from
    a decimal literal.  A float is kept as the rational its source
    denotes. *)

Definition digit_of (a : ascii) : option N :=
  let code := N_of_ascii a in
  if ((48 <=? code) && (code <=? 57))%N then Some (code - 48)%N else None.

(** The leading decimal digits of [s]: their value on top of [acc], how
    many were read on top of [n], and what follows them. *)
Fixpoint read_digits (acc : N) (n : nat) (s : string) : N * nat * string :=
  match s with
  | String a rest =>
      match digit_of a with
      | Some d => read_digits (acc * 10 + d)%N (S n) rest
      | None => (acc, n, s)
      end
  | EmptyString => (acc, n, s)
  end.

Definition pow10 (n : nat) : positive := Nat.iter n (Pos.mul 10) 1%positive.

(** [float(s)] for a plain decimal literal: sign, digits, point, digits. *)
Definition float_of_str (s : string) : option Q :=
  let '(negative, s) :=
    match s with
    | String a rest => if Ascii.eqb a "-" then (true, rest) else (false, s)
    | EmptyString => (false, s)
    end in
  let '(int_part, n1, rest) := read_digits 0 0 s in
  let '(frac_part, n2, rest) :=
    match rest with
    | String "." rest' => read_digits 0 0 rest'
    | _ => (0%N, 0%nat, rest)
    end in
  match rest with
  | EmptyString =>
      if (0 <? n1 + n2)%nat
      then let m := Z.of_N (int_part * Npos (pow10 n2) + frac_part) in
           Some ((if negative then - m else m) # pow10 n2)
      else None
  | _ => None
  end.

(** [float(d)] for a [Decimal]. *)
Definition float_of_Decimal (d : Decimal) : Q := tenths d # 10.

(** [v[key]] on a dict. *)
Definition getitem (key : string) (v : pyval) : option pyval :=
  match v with
  | PyDict items => snd <$> head (filter (λ kv, kv.1 = key) items)
  | _ => None
  end.

Definition as_int (v : pyval) : option Z :=
  match v with PyInt n => Some n | _ => None end.

Definition as_str (v : pyval) : option string :=
  match v with PyStr s => Some s | _ => None end.

Definition as_float (v : pyval) : option Q :=
  match v with
  | PyInt n => Some (n # 1)
  | PyDecimal d => Some (float_of_Decimal d)
  | PyStr s => float_of_str s
  | _ => None
  end.

(** An [Optional[...]] field: absent or [None] is [None]. *)
Definition as_optional {A} (f : pyval → option A) (v : option pyval) : option (option A) :=
  match v with
  | None | Some PyNone => Some None
  | Some x => Some <$> f x
  end.

(** Validation into [Movie]; [None] is a validation error. *)
Definition response_model (v : pyval) : option Movie :=
  i ← as_optional as_int (getitem "id" v);
  t ← getitem "title" v ≫= as_str;
  d ← getitem "director" v ≫= as_str;
  y ← getitem "year" v ≫= as_int;
  g ← getitem "genre" v ≫= as_str;
  r ← as_optional as_float (getitem "rating" v);
  Some (mkMovie i t d y g r).

(** ** The service as a whole *)

(** The operations of the service, and the lapse of a time-to-live, which
    is the cache's own doing. *)
Inductive op :=
| Get (movie_id : Z)
| GetBatch (request : BatchMovieRequest)
| ListAll
| ListByGenre (genre : string)
| Create (movie : Movie)
| Update (movie_id : Z) (movie : Movie)
| Delete (movie_id : Z)
| Expire (key : string).

Definition is_mutation (o : op) : bool :=
  match o with
  | Create _ | Update _ _ | Delete _ => true
  | _ => false
  end.

Definition run_op (fl : faults) (o : op) : M pyval :=
  match o with
  | Get movie_id => get_movie fl movie_id
  | GetBatch request => movies ← get_movies_batch fl request; mret (PyList movies)
  | ListAll => get_movies fl None
  | ListByGenre genre => get_movies fl (Some genre)
  | Create movie => create_movie fl movie
  | Update movie_id movie => update_movie fl movie_id movie
  | Delete movie_id => delete_movie fl movie_id
  | Expire key => λ w, (Returned PyNone, set_redis (delete key (redis w)) w)
  end.

(** A history of the service: each operation with what the store does to
    it. *)
Definition run (script : list (faults * op)) (w : world) : world :=
  foldl (λ w step, (run_op step.1 step.2 w).2) w script.

(** ** Reading a trace *)

Definition is_store_event (e : event) : bool :=
  match e with
  | Connect _ | Execute _ _ | Commit _ | Rollback | Close => true
  | _ => false
  end.

Definition is_query (e : event) : bool :=
  match e with Execute _ _ => true | _ => false end.

Definition is_cache_event (e : event) : bool :=
  match e with
  | RedisGet _ | RedisSetex _ _ _ | RedisDelete _ => true
  | _ => false
  end.

Definition is_cache_mutation (e : event) : bool :=
  match e with
  | RedisSetex _ _ _ | RedisDelete _ => true
  | _ => false
  end.




(** ** Vocabulary of the statements *)

(** The world after the calls [es] were made and nothing else changed. *)
Definition log_all (es : list event) (w : world) : world :=
  mkWorld (table w) (movies_id_seq w) (conn w) (redis w) (trace w ++ es)%list.

(** The cached values of the ids that hit, one per occurrence, in input
    order. *)
Definition cache_hits (r : gmap string entry) (ids : list Z) : list pyval :=
  omap (λ i, json_loads ∘ payload <$> r !! get_cache_key i) ids.

(** The ids that miss, one per occurrence, in input order. *)
Definition cache_misses (r : gmap string entry) (ids : list Z) : list Z :=
  filter (λ i, r !! get_cache_key i = None) ids.

(** The rows the store returns for a set of ids. *)
Definition fetched (t : gmap Z columns) (ids : list Z) : list RealDictRow :=
  filter (λ r, row_id r ∈ ids) (scan t).

(** The cache after each of [rows] was written under its own key. *)
Definition cache_rows (rows : list RealDictRow) (r : gmap string entry)
    : gmap string entry :=
  foldl (λ r row, <[get_cache_key (row_id row) :=
                     mkEntry (json_dumps (dict row)) CACHE_TTL]> r) r rows.

Definition setex_event (row : RealDictRow) : event :=
  RedisSetex (get_cache_key (row_id row)) CACHE_TTL (json_dumps (dict row)).

(** The ids that hit, one per occurrence, in input order, and the value
    the cache holds for an id. *)
Definition hit_ids (r : gmap string entry) (ids : list Z) : list Z :=
  filter (λ i, is_Some (r !! get_cache_key i)) ids.

Definition cached_value (r : gmap string entry) (i : Z) : pyval :=
  from_option (json_loads ∘ payload) PyNone (r !! get_cache_key i).

(** How many times [i] occurs in [ids]. *)
Definition occurrences (i : Z) (ids : list Z) : nat :=
  length (filter (λ j, j = i) ids).



(** A per-id cache entry, if present, is the serialised committed row of
    that id: the value of the last write to the row that went through. *)
Definition cache_per_id (t : gmap Z columns) (r : gmap string entry) : Prop :=
  ∀ i e, r !! get_cache_key i = Some e →
    ∃ c, t !! i = Some c ∧ payload e = json_dumps (dict (mkRow i c)).

Definition per_id_coherent (w : world) : Prop := cache_per_id (table w) (redis w).

(** The all-movies entry, if present, is the serialised committed table. *)
Definition cache_listing (t : gmap Z columns) (r : gmap string entry) : Prop :=
  ∀ e, r !! get_all_movies_cache_key = Some e →
    payload e = json_dumps (PyList (dict <$> scan t)).

Definition collection_coherent (w : world) : Prop := cache_listing (table w) (redis w).

(** In a history, every mutation that reaches its commit gets it through. *)
Definition commits_hold (script : list (faults * op)) : Prop :=
  ∀ fl o, (fl, o) ∈ script → is_mutation o = true → commit_fails fl = false.

(** ** Sample data *)

Definition empty_world : world := mkWorld ∅ 1 None ∅ [].

Definition inception : Movie :=
  mkMovie None "Inception" "Christopher Nolan" 2010 "Sci-Fi" (Some (88 # 10)%Q).

Definition inception_rerated : Movie :=
  mkMovie None "Inception" "Christopher Nolan" 2010 "Sci-Fi" (Some (9 # 1)%Q).

Definition heat : Movie :=
  mkMovie None "Heat" "Michael Mann" 1995 "Crime" None.

Definition commit_failure : faults := mkFaults false false true.

(** Inception (id 1) in the table and in the cache, Heat (id 2) in the
    table only, nothing under the all-movies key. *)
Definition sample_world : world :=
  run [(no_faults, Create inception); (no_faults, Create heat);
       (no_faults, Expire "movie:2")] empty_world.

Definition sample_script : list (faults * op) :=
  [(no_faults, Create inception); (mkFaults false true false, Create heat);
   (commit_failure, ListAll); (no_faults, Get 1);
   (no_faults, Update 1 inception_rerated); (no_faults, GetBatch (mkBatch [1; 2]));
   (no_faults, Expire "movie:1"); (commit_failure, Get 1)].

(** ** Vocabulary of the further properties *)

(** A call to [psycopg2.connect]. *)
Definition is_connect (e : event) : bool :=
  match e with Connect _ => true | _ => false end.

(** The cache holds nothing but per-id keys and the all-movies key, each
    stamped with the fixed time-to-live. *)
Definition cache_shape (r : gmap string entry) : Prop :=
  ∀ k e, r !! k = Some e →
    ttl e = CACHE_TTL ∧ (k = get_all_movies_cache_key ∨ ∃ i, k = get_cache_key i).

(** The operations that only read: one record, a batch, a listing. *)
Definition is_read (o : op) : bool :=
  match o with
  | Get _ | GetBatch _ | ListAll | ListByGenre _ => true
  | _ => false
  end.

(** The row a mutation is about: the next id of the sequence for a
    create, the given id otherwise. *)
Definition target (o : op) (w : world) : Z :=
  match o with
  | Update movie_id _ | Delete movie_id => movie_id
  | _ => movies_id_seq w
  end.





(** *** The movie service seen from the watchlist service

    [validate_movie_exists] and [get_movie_details] of
    [watchlist-service/main.py] send [GET /movies/{movie_id}] to the movie
    service, which routes it to [get_movie]. *)

(** A response as the client reads it: the status, and for a 200 the body,
    a record validated by [response_model=Movie]. *)
Record Response := mkResponse { status_code : Z; json_body : option Movie }.

(** What the framework answers for the outcome of [get_movie]: the record
    validated into [Movie] with a 200, the status of an [HTTPException],
    and a 500 for anything else, a record that does not validate
    included. *)
Definition respond (out : outcome pyval) : Response :=
  match out with
  | Returned v =>
      match response_model v with
      | Some m => mkResponse 200 (Some m)
      | None => mkResponse 500 None
      end
  | Raised (HTTPException status _) => mkResponse status None
  | Raised _ => mkResponse 500 None
  end.

(** What the network does to a request: the response arrives, the request
    never reaches the service, or the service handles it and the response
    is lost. *)
Inductive network := Delivered | Unreachable | ResponseLost.

(** [await client.get(f"{MOVIE_SERVICE_URL}/movies/{movie_id}")]: the
    response, or [None] when httpx raises. *)
Definition client_get_movie (net : network) (fl : faults) (movie_id : Z)
    : world → option Response * world := λ w,
  match net with
  | Unreachable => (None, w)
  | ResponseLost => (None, (get_movie fl movie_id w).2)
  | Delivered => (Some (respond (get_movie fl movie_id w).1), (get_movie fl movie_id w).2)
  end.

(** Validates that a movie exists by calling the movie-service API. *)
Definition validate_movie_exists (net : network) (fl : faults) (movie_id : Z)
    : world → bool * world := λ w,
  match client_get_movie net fl movie_id w with
  | (Some response, w') => (status_code response =? 200, w')
  | (None, w') => (false, w')
  end.

(** Fetches full movie details from the movie-service API. *)
Definition get_movie_details (net : network) (fl : faults) (movie_id : Z)
    : world → option Movie * world := λ w,
  match client_get_movie net fl movie_id w with
  | (Some response, w') =>
      (if status_code response =? 200 then json_body response else None, w')
  | (None, w') => (None, w')
  end.

(** A row under the response model. *)
Definition Movie_of_row (movie_id : Z) (c : columns) : Movie :=
  mkMovie (Some movie_id) (c_title c) (c_director c) (c_year c) (c_genre c)
          (float_of_Decimal <$> c_rating c).

(** ** Proof support *)

Ltac unfold_M :=
  unfold get_db_connection, try_finally, try_except, raise,
    psycopg2_connect, conn_commit, conn_rollback, conn_close, cur_execute,
    redis_get, redis_setex, redis_delete, fetchone,
    mbind, M_bind, mret, M_ret in *.

Ltac norm_trace :=
  repeat (rewrite <- app_assoc; simpl); try done.

Lemma get_cache_key_inj (a b : Z) : get_cache_key a = get_cache_key b → a = b.
Proof.
  unfold get_cache_key. intros H. simpl in H. injection H as H.
  by apply (inj pretty).
Qed.

Lemma get_cache_key_not_all (a : Z) : get_cache_key a ≠ get_all_movies_cache_key.
Proof.
  unfold get_cache_key, get_all_movies_cache_key. simpl.
  intros H. injection H. intros _ ?. discriminate.
Qed.

(** C3 — [get_movie]: when the id's key is in the cache, the cached
    document is deserialised and returned and the only call made is that
    cache read; when the key is absent and the table has no such row, the
    404 "Movie not found" is raised and the cache is left as it was; when
    the key is absent and the table has the row, the row is put in the
    cache under the id's key with the fixed TTL and returned. *)
Theorem get_movie_cache_aside (fl : faults) (movie_id : Z) (w : world) :
  (∀ e, redis w !! get_cache_key movie_id = Some e →
     get_movie fl movie_id w
       = (Returned (json_loads (payload e)), log (RedisGet (get_cache_key movie_id)) w))
  ∧ (redis w !! get_cache_key movie_id = None →
     table w !! movie_id = None →
     connect_fails fl = false → execute_fails fl = false →
     ∃ w', get_movie fl movie_id w = (Raised (HTTPException 404 "Movie not found"), w')
       ∧ redis w' = redis w
       ∧ trace w' = (trace w ++ [RedisGet (get_cache_key movie_id); Connect true;
                                Execute (SELECT_WHERE_id movie_id) true; Rollback; Close])%list)
  ∧ (∀ c, redis w !! get_cache_key movie_id = None →
     table w !! movie_id = Some c →
     fl = no_faults →
     ∃ w', get_movie fl movie_id w = (Returned (dict (mkRow movie_id c)), w')
       ∧ redis w' = <[get_cache_key movie_id :=
                       mkEntry (json_dumps (dict (mkRow movie_id c))) CACHE_TTL]> (redis w)
       ∧ table w' = table w
       ∧ trace w' = (trace w ++ [RedisGet (get_cache_key movie_id); Connect true;
                                Execute (SELECT_WHERE_id movie_id) true;
                                RedisSetex (get_cache_key movie_id) CACHE_TTL
                                           (json_dumps (dict (mkRow movie_id c)));
                                Commit true; Close])%list).
Proof.
  split_and!.
  - intros e He. unfold get_movie. unfold_M. rewrite He. reflexivity.
  - intros Hc Ht Hf1 Hf2. unfold get_movie. unfold_M. rewrite Hc, Hf1, Hf2. simpl.
    rewrite Ht. simpl. eexists. split; [reflexivity|]. simpl. split; [done|].
    norm_trace.
  - intros c Hc Ht ->. unfold get_movie. unfold_M. rewrite Hc. simpl.
    rewrite Ht. simpl. eexists. split; [reflexivity|]. simpl.
    split_and!; [done..|]. norm_trace.
Qed.

(** *** The two loops of [get_movies_batch] *)

Lemma log_log_all (e : event) (es : list event) (w : world) :
  log_all es (log e w) = log_all (e :: es) w.
Proof. unfold log_all, log. simpl. by rewrite <- app_assoc. Qed.

Lemma log_all_nil (w : world) : log_all [] w = w.
Proof. destruct w. unfold log_all. simpl. by rewrite app_nil_r. Qed.

Lemma for_in_cons {A S} (x : A) (xs : list A) (body : A → S → M S) (s : S) (w : world) :
  for_in (x :: xs) body s w
  = match body x s w with
    | (Returned s', w1) => for_in xs body s' w1
    | (Raised e, w1) => (Raised e, w1)
    end.
Proof. reflexivity. Qed.

Lemma probe_cache_run (i : Z) (movies : list pyval) (uncached_ids : list Z) (w : world) :
  probe_cache i (movies, uncached_ids) w
  = (Returned (match redis w !! get_cache_key i with
               | Some e => ((movies ++ [json_loads (payload e)])%list, uncached_ids)
               | None => (movies, (uncached_ids ++ [i])%list)
               end),
     log (RedisGet (get_cache_key i)) w).
Proof.
  unfold probe_cache. unfold_M.
  by destruct (redis w !! get_cache_key i).
Qed.

Lemma cache_fetched_run (row : RealDictRow) (movies : list pyval) (w : world) :
  cache_fetched row movies w
  = (Returned (movies ++ [dict row])%list,
     log (setex_event row)
         (set_redis (<[get_cache_key (row_id row) :=
                        mkEntry (json_dumps (dict row)) CACHE_TTL]> (redis w)) w)).
Proof. reflexivity. Qed.

Lemma probe_loop (ids : list Z) (movies : list pyval) (uncached_ids : list Z) (w : world) :
  for_in ids probe_cache (movies, uncached_ids) w
  = (Returned ((movies ++ cache_hits (redis w) ids)%list,
               (uncached_ids ++ cache_misses (redis w) ids)%list),
     log_all (RedisGet ∘ get_cache_key <$> ids) w).
Proof.
  revert movies uncached_ids w.
  induction ids as [|i ids IH]; intros movies uncached_ids w.
  - simpl. unfold_M. unfold cache_hits, cache_misses. simpl.
    by rewrite !app_nil_r, log_all_nil.
  - rewrite for_in_cons, probe_cache_run.
    unfold cache_hits, cache_misses. rewrite filter_cons. simpl.
    destruct (redis w !! get_cache_key i) as [e|] eqn:Hi; simpl.
    + rewrite IH. simpl. rewrite log_log_all.
      by rewrite <- app_assoc.
    + rewrite IH. simpl. rewrite log_log_all.
      by rewrite <- app_assoc.
Qed.

Lemma cache_fetched_loop (rows : list RealDictRow) (movies : list pyval) (w : world) :
  for_in rows cache_fetched movies w
  = (Returned (movies ++ (dict <$> rows))%list,
     log_all (setex_event <$> rows) (set_redis (cache_rows rows (redis w)) w)).
Proof.
  revert movies w. induction rows as [|row rows IH]; intros movies w.
  - simpl. unfold_M. rewrite app_nil_r, log_all_nil. by destruct w.
  - rewrite for_in_cons, cache_fetched_run, IH. simpl.
    rewrite <- app_assoc. f_equal.
    unfold log_all, log, set_redis. simpl. by rewrite <- app_assoc.
Qed.

(** *** One run of [get_movies_batch] that reaches the store *)

Lemma get_movies_batch_hits_only (fl : faults) (request : BatchMovieRequest) (w : world) :
  movie_ids request ≠ [] →
  cache_misses (redis w) (movie_ids request) = [] →
  get_movies_batch fl request w
  = (Returned (cache_hits (redis w) (movie_ids request)),
     log_all (RedisGet ∘ get_cache_key <$> movie_ids request) w).
Proof.
  intros Hne Hm. unfold get_movies_batch.
  destruct (movie_ids request) as [|i ids] eqn:Hids; [done|].
  unfold mbind, M_bind. rewrite probe_loop, Hm. simpl. reflexivity.
Qed.

Lemma get_movies_batch_fetch (fl : faults) (request : BatchMovieRequest) (w : world) :
  cache_misses (redis w) (movie_ids request) ≠ [] →
  connect_fails fl = false →
  execute_fails fl = false →
  ∃ w',
    get_movies_batch fl request w
    = (if commit_fails fl then Raised OperationalError
       else Returned (cache_hits (redis w) (movie_ids request)
                      ++ (dict <$> fetched (table w) (cache_misses (redis w) (movie_ids request))))%list,
       w')
    ∧ redis w' = cache_rows (fetched (table w) (cache_misses (redis w) (movie_ids request))) (redis w)
    ∧ table w' = table w
    ∧ trace w' = (trace w ++ (RedisGet ∘ get_cache_key <$> movie_ids request)
                  ++ [Connect true;
                      Execute (SELECT_WHERE_id_ANY (cache_misses (redis w) (movie_ids request))) true]
                  ++ (setex_event <$> fetched (table w) (cache_misses (redis w) (movie_ids request)))
                  ++ (if commit_fails fl then [Commit false; Rollback; Close]
                      else [Commit true; Close]))%list.
Proof.
  intros Hm Hc He. unfold get_movies_batch.
  destruct (movie_ids request) as [|i ids'] eqn:Hids; [done|].
  unfold mbind at 1. unfold M_bind at 1. rewrite probe_loop. simpl app.
  cbv iota beta.
  destruct (cache_misses (redis w) (i :: ids')) as [|m misses'] eqn:Hmisses; [done|].
  unfold_M. rewrite Hc. simpl. rewrite He. simpl.
  fold (fetched (table w) (m :: misses')).
  rewrite cache_fetched_loop. simpl.
  destruct (commit_fails fl); simpl.
  - eexists. split; [reflexivity|]. simpl. split_and!; try done. norm_trace.
  - eexists. split; [reflexivity|]. simpl. split_and!; try done. norm_trace.
Qed.

(** *** What the store returns and what the cache then holds *)

Lemma elem_of_scan (t : gmap Z columns) (r : RealDictRow) :
  r ∈ scan t ↔ t !! row_id r = Some (row_cols r).
Proof.
  unfold scan. rewrite list_elem_of_fmap. split.
  - intros [[k c] [-> H]]. simpl. by apply elem_of_map_to_list.
  - intros H. exists (row_id r, row_cols r). split; [by destruct r|].
    by apply elem_of_map_to_list.
Qed.

Lemma NoDup_scan_ids (t : gmap Z columns) : NoDup (row_id <$> scan t).
Proof.
  unfold scan. rewrite <- list_fmap_compose.
  rewrite (list_fmap_ext _ fst (map_to_list t)) by done.
  apply NoDup_fst_map_to_list.
Qed.

Lemma elem_of_fetched (t : gmap Z columns) (ids : list Z) (r : RealDictRow) :
  r ∈ fetched t ids ↔ row_id r ∈ ids ∧ t !! row_id r = Some (row_cols r).
Proof. unfold fetched. by rewrite list_elem_of_filter, elem_of_scan. Qed.

Lemma NoDup_fetched_ids (t : gmap Z columns) (ids : list Z) :
  NoDup (row_id <$> fetched t ids).
Proof.
  eapply sublist_NoDup; [apply (NoDup_scan_ids t)|].
  unfold fetched. apply fmap_sublist, sublist_filter.
Qed.

Lemma fetched_nil (t : gmap Z columns) : fetched t [] = [].
Proof.
  apply elem_of_nil_inv. intros r [H _]%elem_of_fetched.
  by apply elem_of_nil in H.
Qed.

Lemma length_fetched (t : gmap Z columns) (ids : list Z) :
  (length (fetched t ids) ≤ length ids)%nat.
Proof.
  rewrite <- (length_fmap row_id (fetched t ids)).
  apply submseteq_length, NoDup_submseteq; [apply NoDup_fetched_ids|].
  intros i (r & -> & Hr)%list_elem_of_fmap.
  by apply elem_of_fetched in Hr as [? _].
Qed.

Lemma length_hits_misses (r : gmap string entry) (ids : list Z) :
  (length (cache_hits r ids) + length (cache_misses r ids))%nat = length ids.
Proof.
  unfold cache_hits, cache_misses. induction ids as [|i ids IH]; [done|].
  rewrite filter_cons. simpl.
  unfold omap in *.
  destruct (r !! get_cache_key i); simpl; lia.
Qed.

Lemma cache_rows_cons (row : RealDictRow) (rows : list RealDictRow) (r : gmap string entry) :
  cache_rows (row :: rows) r
  = cache_rows rows (<[get_cache_key (row_id row) :=
                        mkEntry (json_dumps (dict row)) CACHE_TTL]> r).
Proof. reflexivity. Qed.

Lemma cache_rows_other (rows : list RealDictRow) (r : gmap string entry) (k : string) :
  (∀ row, row ∈ rows → get_cache_key (row_id row) ≠ k) →
  cache_rows rows r !! k = r !! k.
Proof.
  revert r. induction rows as [|row rows IH]; intros r H; [done|].
  rewrite cache_rows_cons, IH.
  - apply lookup_insert_ne, H. left.
  - intros row' Hrow'. apply H. by right.
Qed.

Lemma cache_rows_lookup (rows : list RealDictRow) (r : gmap string entry) (row : RealDictRow) :
  NoDup (row_id <$> rows) →
  row ∈ rows →
  cache_rows rows r !! get_cache_key (row_id row)
  = Some (mkEntry (json_dumps (dict row)) CACHE_TTL).
Proof.
  revert r. induction rows as [|row0 rows IH]; intros r Hnd Hin.
  - by apply elem_of_nil in Hin.
  - rewrite fmap_cons in Hnd. apply NoDup_cons in Hnd as [Hfresh Hnd].
    rewrite cache_rows_cons.
    apply elem_of_cons in Hin as [->|Hin].
    + rewrite cache_rows_other; [apply lookup_insert_eq|].
      intros row' Hrow' Hk. apply get_cache_key_inj in Hk.
      apply Hfresh. rewrite <- Hk. by apply list_elem_of_fmap_2.
    + by apply IH.
Qed.

Lemma get_movies_batch_answer (request : BatchMovieRequest) (w : world) :
  ∃ w',
    get_movies_batch no_faults request w
    = (Returned (cache_hits (redis w) (movie_ids request)
                 ++ (dict <$> fetched (table w) (cache_misses (redis w) (movie_ids request))))%list,
       w')
    ∧ (∀ row, row ∈ fetched (table w) (cache_misses (redis w) (movie_ids request)) →
         redis w' !! get_cache_key (row_id row)
         = Some (mkEntry (json_dumps (dict row)) CACHE_TTL)).
Proof.
  destruct (decide (cache_misses (redis w) (movie_ids request) = [])) as [Hm|Hm].
  - assert (Hrun : get_movies_batch no_faults request w
                   = (Returned (cache_hits (redis w) (movie_ids request)),
                      log_all (RedisGet ∘ get_cache_key <$> movie_ids request) w)).
    { destruct (decide (movie_ids request = [])) as [Hids|Hids].
      - unfold get_movies_batch. rewrite Hids. simpl. by rewrite log_all_nil.
      - by apply get_movies_batch_hits_only. }
    eexists. split.
    + rewrite Hrun, Hm, fetched_nil. simpl. by rewrite app_nil_r.
    + rewrite Hm, fetched_nil. intros row Hrow. by apply elem_of_nil in Hrow.
  - destruct (get_movies_batch_fetch no_faults request w Hm eq_refl eq_refl)
      as (w' & Hrun & Hredis & _ & _).
    exists w'. simpl in Hrun. split; [done|].
    intros row Hrow. rewrite Hredis.
    apply cache_rows_lookup; [apply NoDup_fetched_ids|done].
Qed.

(** C4 — [get_movies_batch] answers with every cache hit in input order,
    then every row the store returned, in the store's order; each such row
    is then in the cache under its own key with the fixed TTL; an id that
    is in neither place yields no element and no error, so the answer is
    never longer than the input and may be shorter. *)
Theorem get_movies_batch_hits_then_rows (request : BatchMovieRequest) (w : world) :
  ∃ w',
    get_movies_batch no_faults request w
    = (Returned (cache_hits (redis w) (movie_ids request)
                 ++ (dict <$> fetched (table w) (cache_misses (redis w) (movie_ids request))))%list,
       w')
    ∧ (∀ row, row ∈ fetched (table w) (cache_misses (redis w) (movie_ids request)) →
         redis w' !! get_cache_key (row_id row)
         = Some (mkEntry (json_dumps (dict row)) CACHE_TTL))
    ∧ (∀ i, i ∈ movie_ids request →
         redis w !! get_cache_key i = None → table w !! i = None →
         ∀ row, row ∈ fetched (table w) (cache_misses (redis w) (movie_ids request)) →
           row_id row ≠ i)
    ∧ (length (cache_hits (redis w) (movie_ids request)
               ++ (dict <$> fetched (table w) (cache_misses (redis w) (movie_ids request))))
       ≤ length (movie_ids request))%nat.
Proof.
  destruct (get_movies_batch_answer request w) as (w' & Hrun & Hcache).
  exists w'. split_and!; [exact Hrun|exact Hcache| |].
  - intros i _ _ Ht row [_ Hrow]%elem_of_fetched Heq.
    rewrite Heq in Hrow. congruence.
  - rewrite length_app, length_fmap, <- (length_hits_misses (redis w)).
    pose proof (length_fetched (table w) (cache_misses (redis w) (movie_ids request))).
    lia.
Qed.

(** *** Counting the calls of a batch *)

Lemma gets_no_store_event (ids : list Z) :
  filter is_store_event (RedisGet ∘ get_cache_key <$> ids) = [].
Proof.
  induction ids as [|i ids IH]; [done|].
  rewrite fmap_cons, filter_cons_False; [done|]. simpl. tauto.
Qed.

Lemma gets_no_query (ids : list Z) :
  filter is_query (RedisGet ∘ get_cache_key <$> ids) = [].
Proof.
  induction ids as [|i ids IH]; [done|].
  rewrite fmap_cons, filter_cons_False; [done|]. simpl. tauto.
Qed.

Lemma setex_no_query (rows : list RealDictRow) :
  filter is_query (setex_event <$> rows) = [].
Proof.
  induction rows as [|row rows IH]; [done|].
  rewrite fmap_cons, filter_cons_False; [done|]. simpl. tauto.
Qed.

Lemma elem_of_cache_misses (r : gmap string entry) (ids : list Z) (i : Z) :
  i ∈ cache_misses r ids ↔ i ∈ ids ∧ r !! get_cache_key i = None.
Proof. unfold cache_misses. rewrite list_elem_of_filter. tauto. Qed.

(** C5 — on an empty id list [get_movies_batch] answers [[]] and calls
    neither collaborator; when every id hits it calls the cache only; when
    some id misses and the store answers it sends exactly one statement,
    whose ids are exactly the input ids that missed. *)
Theorem get_movies_batch_store_access (fl : faults) (request : BatchMovieRequest) (w : world) :
  (movie_ids request = [] → get_movies_batch fl request w = (Returned [], w))
  ∧ (movie_ids request ≠ [] →
     cache_misses (redis w) (movie_ids request) = [] →
     ∃ out new,
       get_movies_batch fl request w = (Returned out, log_all new w)
       ∧ filter is_store_event new = [])
  ∧ (cache_misses (redis w) (movie_ids request) ≠ [] →
     connect_fails fl = false → execute_fails fl = false →
     ∃ out w' new,
       get_movies_batch fl request w = (out, w')
       ∧ trace w' = (trace w ++ new)%list
       ∧ filter is_query new
         = [Execute (SELECT_WHERE_id_ANY (cache_misses (redis w) (movie_ids request))) true])
  ∧ (∀ i, i ∈ cache_misses (redis w) (movie_ids request)
          ↔ i ∈ movie_ids request ∧ redis w !! get_cache_key i = None).
Proof.
  split_and!.
  - intros Hids. unfold get_movies_batch. by rewrite Hids.
  - intros Hids Hm. eexists _, _. split.
    + by apply get_movies_batch_hits_only.
    + apply gets_no_store_event.
  - intros Hm Hc He.
    destruct (get_movies_batch_fetch fl request w Hm Hc He) as (w' & Hrun & _ & _ & Htr).
    eexists _, w', _. split_and!; [exact Hrun|exact Htr|].
    rewrite !filter_app, gets_no_query, setex_no_query. simpl.
    by destruct (commit_fails fl).
  - intros i. apply elem_of_cache_misses.
Qed.

(** *** Duplicated ids *)

Lemma cache_hits_per_occurrence (r : gmap string entry) (ids : list Z) :
  cache_hits r ids = cached_value r <$> hit_ids r ids.
Proof.
  unfold cache_hits, hit_ids, cached_value. induction ids as [|i ids IH]; [done|].
  rewrite filter_cons. simpl. unfold omap in *.
  destruct (r !! get_cache_key i) as [e|] eqn:Hi; simpl.
  - rewrite Hi. simpl. by f_equal.
  - done.
Qed.

Lemma occurrences_hit_ids (r : gmap string entry) (ids : list Z) (i : Z) :
  is_Some (r !! get_cache_key i) →
  occurrences i (hit_ids r ids) = occurrences i ids.
Proof.
  intros Hi. unfold occurrences, hit_ids. induction ids as [|j ids IH]; [done|].
  rewrite (filter_cons _ j ids). destruct (decide (is_Some (r !! get_cache_key j))) as [Hj|Hj].
  - rewrite !filter_cons. destruct (decide (j = i)); simpl; by rewrite IH.
  - rewrite (filter_cons_False _ j ids); [done|]. by intros ->.
Qed.

Lemma at_most_one_with_key {A} (f : A → Z) (l : list A) (i : Z) :
  NoDup (f <$> l) → (length (filter (λ x, f x = i) l) ≤ 1)%nat.
Proof.
  induction l as [|x l IH]; intros Hnd; [simpl; lia|].
  rewrite fmap_cons in Hnd. apply NoDup_cons in Hnd as [Hx Hnd].
  rewrite filter_cons. destruct (decide (f x = i)) as [Hfx|Hfx]; [|by apply IH].
  assert (filter (λ y, f y = i) l = []) as ->; [|simpl; lia].
  apply elem_of_nil_inv. intros y [Hy Hin]%list_elem_of_filter.
  apply Hx. rewrite Hfx, <- Hy. by apply list_elem_of_fmap_2.
Qed.

(** C10 — with duplicated ids in the input of [get_movies_batch], the hit
    part of the answer has one element per occurrence of a cached id (an id
    occurring [k] times is answered [k] times), while an id that misses is
    answered by at most one row however often it occurs. *)
Theorem get_movies_batch_duplicates (request : BatchMovieRequest) (w : world) :
  ∃ w',
    get_movies_batch no_faults request w
    = (Returned ((cached_value (redis w) <$> hit_ids (redis w) (movie_ids request))
                 ++ (dict <$> fetched (table w) (cache_misses (redis w) (movie_ids request))))%list,
       w')
    ∧ (∀ i, is_Some (redis w !! get_cache_key i) →
         occurrences i (hit_ids (redis w) (movie_ids request))
         = occurrences i (movie_ids request))
    ∧ (∀ i, redis w !! get_cache_key i = None →
         (length (filter (λ row, row_id row = i)
                    (fetched (table w) (cache_misses (redis w) (movie_ids request)))) ≤ 1)%nat).
Proof.
  destruct (get_movies_batch_answer request w) as (w' & Hrun & _).
  exists w'. split_and!.
  - by rewrite <- cache_hits_per_occurrence.
  - intros i Hi. by apply occurrences_hit_ids.
  - intros i _. apply at_most_one_with_key, NoDup_fetched_ids.
Qed.

(** *** Running a block under [get_db_connection] *)

Lemma get_db_connection_run {A} (fl : faults) (body : M A) (w : world) :
  get_db_connection fl body w
  = if connect_fails fl then (Raised OperationalError, log (Connect false) w)
    else
      match body (log (Connect true) (set_conn (Some (table w)) w)) with
      | (Returned a, w1) =>
          if commit_fails fl
          then (Raised OperationalError,
                (conn_close (conn_rollback (log (Commit false) w1)).2).2)
          else (Returned a, (conn_close (conn_commit fl w1).2).2)
      | (Raised e, w1) => (Raised e, (conn_close (conn_rollback w1).2).2)
      end.
Proof.
  unfold_M. destruct (connect_fails fl); [done|]. simpl.
  destruct (body _) as [[a|e] w1]; simpl; [|done].
  by destruct (commit_fails fl).
Qed.

Lemma cur_execute_run (fl : faults) (q : query) (rows : gmap Z columns) (w : world) :
  conn w = Some rows →
  cur_execute fl q w
  = if execute_fails fl then (Raised OperationalError, log (Execute q false) w)
    else match run_query q rows (movies_id_seq w) with
         | (seq, Raised e) => (Raised e, log (Execute q false) (set_seq seq w))
         | (seq, Returned (rows', result)) =>
             (Returned result,
              log (Execute q true) (set_conn (Some rows') (set_seq seq w)))
         end.
Proof. intros H. unfold cur_execute. by rewrite H. Qed.

(** *** Updating and deleting *)


(** *** Listing *)





(** C9 (as amended) — for a genre that is not the empty string, the
    filtered [get_movies] makes no cache call, leaves the cache as it was,
    and sends its statement to the store on every call, the second of two
    consecutive calls included. *)
Theorem get_movies_by_genre_bypasses_cache (fl : faults) (genre : string) (w : world) :
  genre ≠ "" →
  ∃ out1 w1 new1 out2 w2 new2,
    get_movies fl (Some genre) w = (out1, w1)
    ∧ get_movies fl (Some genre) w1 = (out2, w2)
    ∧ trace w1 = (trace w ++ new1)%list ∧ trace w2 = (trace w1 ++ new2)%list
    ∧ redis w1 = redis w ∧ redis w2 = redis w
    ∧ filter is_cache_event new1 = [] ∧ filter is_cache_event new2 = []
    ∧ (connect_fails fl = false →
       filter is_query new1 = [Execute (SELECT_WHERE_genre genre) (negb (execute_fails fl))]
       ∧ filter is_query new2 = [Execute (SELECT_WHERE_genre genre) (negb (execute_fails fl))]).
Proof.
  intros Hg. destruct genre as [|a genre]; [done|].
  unfold get_movies. unfold_M.
  destruct (connect_fails fl); simpl;
    [|destruct (execute_fails fl); simpl; [|destruct (commit_fails fl); simpl]].
  all: eexists _, _, _, _, _, _; split; [reflexivity|]; split; [reflexivity|]; simpl.
  all: split; [norm_trace|]; split; [norm_trace|]; done.
Qed.

(** *** Mutations: the order of store and cache calls *)




(** *** Coherence of the cache with the committed table *)

Lemma cache_per_id_setex (t : gmap Z columns) (r : gmap string entry) (i : Z) (c : columns) :
  t !! i = Some c →
  cache_per_id t r →
  cache_per_id t (<[get_cache_key i := mkEntry (json_dumps (dict (mkRow i c))) CACHE_TTL]> r).
Proof.
  intros Hi H j e. destruct (decide (j = i)) as [->|Hne].
  - rewrite lookup_insert_eq. intros [= <-]. by exists c.
  - rewrite lookup_insert_ne; [apply H|]. intros Hk. by apply get_cache_key_inj in Hk.
Qed.

Lemma cache_per_id_delete (t : gmap Z columns) (r : gmap string entry) (k : string) :
  cache_per_id t r → cache_per_id t (delete k r).
Proof.
  intros H j e Hj. apply H. by apply lookup_delete_Some in Hj as [_ ?].
Qed.

Lemma cache_per_id_setex_all (t : gmap Z columns) (r : gmap string entry) (e : entry) :
  cache_per_id t r → cache_per_id t (<[get_all_movies_cache_key := e]> r).
Proof.
  intros H j e'. rewrite lookup_insert_ne; [apply H|].
  intros Hk. symmetry in Hk. by apply get_cache_key_not_all in Hk.
Qed.

Lemma cache_per_id_write (t : gmap Z columns) (r : gmap string entry) (i : Z) (c : columns) :
  cache_per_id t r →
  cache_per_id (<[i := c]> t)
    (delete get_all_movies_cache_key
       (<[get_cache_key i := mkEntry (json_dumps (dict (mkRow i c))) CACHE_TTL]> r)).
Proof.
  intros H. apply cache_per_id_delete. intros j e.
  destruct (decide (j = i)) as [->|Hne].
  - rewrite !lookup_insert_eq. intros [= <-]. by exists c.
  - rewrite !lookup_insert_ne; [apply H|done|].
    intros Hk. by apply get_cache_key_inj in Hk.
Qed.

Lemma cache_per_id_remove (t : gmap Z columns) (r : gmap string entry) (i : Z) :
  cache_per_id t r →
  cache_per_id (delete i t)
    (delete get_all_movies_cache_key (delete (get_cache_key i) r)).
Proof.
  intros H. apply cache_per_id_delete. intros j e.
  destruct (decide (j = i)) as [->|Hne].
  - by rewrite lookup_delete_eq.
  - rewrite !lookup_delete_ne; [apply H|done|].
    intros Hk. by apply get_cache_key_inj in Hk.
Qed.

Lemma cache_rows_lookup_inv (rows : list RealDictRow) (r : gmap string entry)
    (k : string) (e : entry) :
  cache_rows rows r !! k = Some e →
  r !! k = Some e
  ∨ ∃ row, row ∈ rows ∧ k = get_cache_key (row_id row)
           ∧ e = mkEntry (json_dumps (dict row)) CACHE_TTL.
Proof.
  revert r. induction rows as [|row rows IH]; intros r H; [by left|].
  rewrite cache_rows_cons in H. apply IH in H as [H|(row' & Hin & Hk & He)].
  - apply lookup_insert_Some in H as [[<- <-]|[_ H]]; [|by left].
    right. exists row. split; [left|done].
  - right. exists row'. split; [by right|done].
Qed.

Lemma cache_per_id_rows (t : gmap Z columns) (r : gmap string entry) (ids : list Z) :
  cache_per_id t r → cache_per_id t (cache_rows (fetched t ids) r).
Proof.
  intros H j e Hj. apply cache_rows_lookup_inv in Hj as [Hj|(row & Hin & Hk & ->)].
  - by apply H.
  - apply get_cache_key_inj in Hk as ->. apply elem_of_fetched in Hin as [_ Hin].
    exists (row_cols row). split; [done|]. by destruct row.
Qed.




Lemma get_movies_batch_store_down (fl : faults) (request : BatchMovieRequest) (w : world) :
  cache_misses (redis w) (movie_ids request) ≠ [] →
  connect_fails fl = true ∨ execute_fails fl = true →
  ∃ w', get_movies_batch fl request w = (Raised OperationalError, w')
    ∧ redis w' = redis w ∧ table w' = table w.
Proof.
  intros Hm Hdown. unfold get_movies_batch.
  destruct (movie_ids request) as [|i ids'] eqn:Hreq; [done|].
  unfold mbind at 1. unfold M_bind at 1. rewrite probe_loop. cbv iota beta.
  destruct (cache_misses (redis w) (i :: ids')) as [|m misses']; [done|].
  rewrite !app_nil_l. cbv iota beta.
  rewrite get_db_connection_run.
  destruct (connect_fails fl) eqn:Hc; [by eexists|].
  destruct Hdown as [|He]; [done|].
  unfold mbind at 1. unfold M_bind at 1.
  rewrite (cur_execute_run _ _ (table w)) by done. rewrite He. simpl.
  by eexists.
Qed.

(** What a batch leaves behind, whatever the store does. *)
Lemma get_movies_batch_leaves (fl : faults) (request : BatchMovieRequest) (w : world)
    (out : outcome (list pyval)) (w' : world) :
  get_movies_batch fl request w = (out, w') →
  table w' = table w
  ∧ (redis w' = redis w
     ∨ redis w'
       = cache_rows (fetched (table w) (cache_misses (redis w) (movie_ids request))) (redis w)).
Proof.
  destruct (decide (movie_ids request = [])) as [Hids|Hids].
  { unfold get_movies_batch. rewrite Hids. simpl. intros [= <- <-]. auto. }
  destruct (decide (cache_misses (redis w) (movie_ids request) = [])) as [Hm|Hm].
  { rewrite get_movies_batch_hits_only by done. intros [= <- <-]. simpl. auto. }
  destruct (connect_fails fl) eqn:Hc; [|destruct (execute_fails fl) eqn:He].
  - destruct (get_movies_batch_store_down fl request w Hm) as (w1 & -> & Hr & Ht); [auto|].
    intros [= <- <-]. auto.
  - destruct (get_movies_batch_store_down fl request w Hm) as (w1 & -> & Hr & Ht); [auto|].
    intros [= <- <-]. auto.
  - destruct (get_movies_batch_fetch fl request w Hm Hc He) as (w1 & -> & Hr & Ht & _).
    intros [= <- <-]. auto.
Qed.





Section Coherence.

#[local] Arguments get_cache_key : simpl never.
#[local] Arguments get_all_movies_cache_key : simpl never.
#[local] Arguments json_dumps : simpl never.
#[local] Arguments dict : simpl never.
#[local] Arguments scan : simpl never.

Ltac unchanged H :=
  unfold per_id_coherent, collection_coherent in *; simpl; exact H.

Ltac changed_by lem H :=
  unfold per_id_coherent, collection_coherent in *; simpl; apply lem; exact H.

Lemma step_per_id_coherent (fl : faults) (o : op) (w : world) :
  (is_mutation o = true → commit_fails fl = false) →
  per_id_coherent w → per_id_coherent (run_op fl o w).2.
Proof.
  intros Hcommit H. destruct o as [i|request| |g|movie|i movie|i|k]; simpl.
  - unfold get_movie. unfold_M.
    destruct (redis w !! get_cache_key i); simpl; [unchanged H|].
    destruct (connect_fails fl); simpl; [unchanged H|].
    destruct (execute_fails fl); simpl; [unchanged H|].
    destruct (table w !! i) eqn:Hi; simpl; [|unchanged H].
    destruct (commit_fails fl); simpl;
      unfold per_id_coherent in *; simpl; by apply cache_per_id_setex.
  - unfold mbind, M_bind.
    destruct (get_movies_batch fl request w) as [out w'] eqn:Hrun.
    apply get_movies_batch_leaves in Hrun as [Ht Hr].
    assert (per_id_coherent w') as H'.
    { unfold per_id_coherent. rewrite Ht.
      destruct Hr as [->| ->]; [done|]. by apply cache_per_id_rows. }
    by destruct out.
  - unfold get_movies. unfold_M.
    destruct (redis w !! get_all_movies_cache_key); simpl; [unchanged H|].
    destruct (connect_fails fl); simpl; [unchanged H|].
    destruct (execute_fails fl); simpl; [unchanged H|].
    destruct (commit_fails fl); simpl; changed_by cache_per_id_setex_all H.
  - unfold get_movies. unfold_M. destruct g as [|a g].
    + destruct (redis w !! get_all_movies_cache_key); simpl; [unchanged H|].
      destruct (connect_fails fl); simpl; [unchanged H|].
      destruct (execute_fails fl); simpl; [unchanged H|].
      destruct (commit_fails fl); simpl; changed_by cache_per_id_setex_all H.
    + destruct (connect_fails fl); simpl; [unchanged H|].
      destruct (execute_fails fl); simpl; [unchanged H|].
      destruct (commit_fails fl); simpl; unchanged H.
  - specialize (Hcommit eq_refl). unfold create_movie. unfold_M.
    destruct (connect_fails fl); simpl; [unchanged H|].
    destruct (execute_fails fl); simpl; [unchanged H|].
    destruct (coerce_columns _ _ _ _ _) as [c|]; simpl; [|unchanged H].
    destruct (table w !! movies_id_seq w); simpl; [unchanged H|].
    rewrite Hcommit. simpl. changed_by cache_per_id_write H.
  - specialize (Hcommit eq_refl). unfold update_movie. unfold_M.
    destruct (connect_fails fl); simpl; [unchanged H|].
    destruct (execute_fails fl); simpl; [unchanged H|].
    destruct (coerce_columns _ _ _ _ _) as [c|]; simpl; [|unchanged H].
    destruct (table w !! i); simpl; [|unchanged H].
    rewrite Hcommit. simpl. changed_by cache_per_id_write H.
  - specialize (Hcommit eq_refl). unfold delete_movie. unfold_M.
    destruct (connect_fails fl); simpl; [unchanged H|].
    destruct (execute_fails fl); simpl; [unchanged H|].
    destruct (table w !! i); simpl; [|unchanged H].
    rewrite Hcommit. simpl. changed_by cache_per_id_remove H.
  - changed_by cache_per_id_delete H.
Qed.


End Coherence.

Lemma run_cons (step : faults * op) (script : list (faults * op)) (w : world) :
  run (step :: script) w = run script (run_op step.1 step.2 w).2.
Proof. reflexivity. Qed.


Lemma run_per_id_coherent (script : list (faults * op)) (w : world) :
  commits_hold script → per_id_coherent w → per_id_coherent (run script w).
Proof.
  revert w. induction script as [|[fl o] script IH]; intros w Hc H; [done|].
  rewrite run_cons. apply IH.
  - intros fl' o' Hin. apply Hc. by right.
  - apply step_per_id_coherent; [|done]. simpl. apply Hc. left.
Qed.



(** *** A rating through the cache and back *)

Lemma digit_of_pretty_N_char (x : N) :
  (x < 10)%N → digit_of (pretty_N_char x) = Some x.
Proof.
  intros Hx.
  assert (x = 0 ∨ x = 1 ∨ x = 2 ∨ x = 3 ∨ x = 4 ∨ x = 5 ∨ x = 6 ∨ x = 7 ∨ x = 8 ∨ x = 9)%N
    as Hcases by lia.
  destruct_or!; by subst.
Qed.

Lemma pretty_N_go_app (x : N) (s t : string) :
  pretty_N_go x s +:+ t = pretty_N_go x (s +:+ t).
Proof.
  revert s. induction (N.lt_wf_0 x) as [x _ IH]; intros s.
  assert (x = 0 ∨ 0 < x)%N as [->|Hx] by lia.
  - by rewrite !pretty_N_go_0.
  - rewrite (pretty_N_go_step x s), (pretty_N_go_step x (s +:+ t)) by done.
    by rewrite IH by (by apply N.div_lt).
Qed.

Lemma read_digits_pretty_N_go (x : N) (s : string) (n : nat) :
  ∃ k, read_digits 0 n (pretty_N_go x s) = read_digits x k s.
Proof.
  revert s n. induction (N.lt_wf_0 x) as [x _ IH]; intros s n.
  assert (x = 0 ∨ 0 < x)%N as [->|Hx] by lia.
  - exists n. by rewrite pretty_N_go_0.
  - rewrite pretty_N_go_step by done.
    destruct (IH (x `div` 10)%N (N.div_lt x 10 Hx eq_refl)
                 (String (pretty_N_char (x `mod` 10)) s) n) as [k Hk].
    exists (S k). rewrite Hk. simpl.
    rewrite digit_of_pretty_N_char by (apply N.mod_lt; lia).
    f_equal. pose proof (N.div_mod x 10). lia.
Qed.

Lemma read_digits_pretty_point (x : N) (t : string) :
  ∃ k, read_digits 0 0 (pretty x +:+ String "." t) = (x, k, String "." t).
Proof.
  unfold pretty, pretty_N. destruct (decide (x = 0%N)) as [->|Hx].
  - by exists 1%nat.
  - rewrite pretty_N_go_app. change ("" +:+ String "." t) with (String "." t).
    destruct (read_digits_pretty_N_go x (String "." t) 0) as [k ->].
    by exists k.
Qed.

Lemma pretty_N_not_dash (x : N) (t : string) (a : ascii) (rest : string) :
  pretty x +:+ String "." t = String a rest → Ascii.eqb a "-" = false.
Proof.
  intros H. apply Ascii.eqb_neq. intros ->.
  unfold pretty, pretty_N in H. destruct (decide (x = 0%N)) as [->|Hx]; [done|].
  rewrite pretty_N_go_app in H. change ("" +:+ String "." t) with (String "." t) in H.
  by apply (pretty_N_go_ne_dash x (String "." t) rest) in H.
Qed.

Lemma read_single_digit (x : N) :
  (x < 10)%N → read_digits 0 0 (pretty x) = (x, 1%nat, "").
Proof.
  intros Hx.
  assert (x = 0 ∨ x = 1 ∨ x = 2 ∨ x = 3 ∨ x = 4 ∨ x = 5 ∨ x = 6 ∨ x = 7 ∨ x = 8 ∨ x = 9)%N
    as Hcases by lia.
  destruct_or!; by subst.
Qed.

Lemma float_of_str_Decimal (d : Decimal) :
  float_of_str (str_Decimal d) = Some (float_of_Decimal d).
Proof.
  unfold str_Decimal, float_of_Decimal, float_of_str.
  set (ip := Z.to_N (Z.abs (tenths d) / 10)).
  set (fp := Z.to_N (Z.abs (tenths d) mod 10)).
  pose proof (Z.mod_pos_bound (Z.abs (tenths d)) 10 eq_refl) as Hmod.
  pose proof (Z.div_pos (Z.abs (tenths d)) 10 (Z.abs_nonneg _) eq_refl) as Hdiv.
  pose proof (Z.div_mod (Z.abs (tenths d)) 10 ltac:(done)) as Hdm.
  assert (fp < 10)%N as Hfp.
  { subst fp. apply N2Z.inj_lt. rewrite Z2N.id; lia. }
  destruct (read_digits_pretty_point ip (pretty fp)) as [k Hk].
  assert (Z.of_N (ip * 10 + fp) = Z.abs (tenths d)) as Hval.
  { subst ip fp. rewrite N2Z.inj_add, N2Z.inj_mul, !Z2N.id; lia. }
  destruct (tenths d <? 0) eqn:Hsign.
  - simpl.
    change ("" +:+ pretty ip +:+ "." +:+ pretty fp)
      with (pretty ip +:+ String "." (pretty fp)).
    rewrite Hk. rewrite read_single_digit by done.
    rewrite Nat.add_1_r. simpl. change (10 * 1)%positive with 10%positive.
    rewrite Hval. apply Z.ltb_lt in Hsign. do 2 f_equal. lia.
  - change ("" +:+ pretty ip +:+ "." +:+ pretty fp)
      with (pretty ip +:+ String "." (pretty fp)).
    destruct (pretty ip +:+ String "." (pretty fp)) as [|a rest] eqn:Hs.
    { by apply (f_equal (read_digits 0 0)) in Hs; rewrite Hk in Hs. }
    rewrite (pretty_N_not_dash ip (pretty fp) a rest Hs), Hk.
    rewrite read_single_digit by done.
    rewrite Nat.add_1_r. simpl. change (10 * 1)%positive with 10%positive.
    rewrite Hval. apply Z.ltb_ge in Hsign. do 2 f_equal. lia.
Qed.

Lemma loads_dumps_dict (row : RealDictRow) :
  json_loads (json_dumps (dict row))
  = PyDict [ ("id", PyInt (row_id row));
             ("title", PyStr (c_title (row_cols row)));
             ("director", PyStr (c_director (row_cols row)));
             ("year", PyInt (c_year (row_cols row)));
             ("genre", PyStr (c_genre (row_cols row)));
             ("rating", match c_rating (row_cols row) with
                        | Some d => PyStr (str_Decimal d)
                        | None => PyNone
                        end) ].
Proof. unfold dict. simpl. by destruct (c_rating (row_cols row)). Qed.

Lemma response_model_dict (row : RealDictRow) :
  response_model (dict row)
  = Some (mkMovie (Some (row_id row)) (c_title (row_cols row)) (c_director (row_cols row))
                  (c_year (row_cols row)) (c_genre (row_cols row))
                  (float_of_Decimal <$> c_rating (row_cols row))).
Proof. unfold dict. by destruct (c_rating (row_cols row)). Qed.

Lemma response_model_cached (row : RealDictRow) :
  response_model (json_loads (json_dumps (dict row))) = response_model (dict row).
Proof.
  rewrite loads_dumps_dict, response_model_dict.
  destruct (c_rating (row_cols row)) as [d|] eqn:Hr; [|done].
  unfold response_model. simpl. by rewrite float_of_str_Decimal.
Qed.

Lemma create_movie_returns (fl : faults) (movie : Movie) (w : world) (r : pyval) (w1 : world) :
  create_movie fl movie w = (Returned r, w1) →
  ∃ c, coerce_columns (title movie) (director movie) (year movie) (genre movie)
                      (rating movie) = Some c
    ∧ r = dict (mkRow (movies_id_seq w) c)
    ∧ table w1 = <[movies_id_seq w := c]> (table w)
    ∧ redis w1 = delete get_all_movies_cache_key
                   (<[get_cache_key (movies_id_seq w) :=
                       mkEntry (json_dumps (dict (mkRow (movies_id_seq w) c))) CACHE_TTL]>
                    (redis w)).
Proof.
  unfold create_movie. unfold_M.
  destruct (connect_fails fl); [done|]. simpl.
  destruct (execute_fails fl); [done|]. simpl.
  destruct (coerce_columns _ _ _ _ _) as [c|]; [|done].
  destruct (table w !! movies_id_seq w); [done|]. simpl.
  destruct (commit_fails fl); [done|]. simpl.
  intros [= <- <-]. by exists c.
Qed.

(** C6 — once [create_movie] has returned a record, [get_movie] on its id
    answers from the cache with a single cache read and no store call, with
    the same keys and the same id, title, director, year and genre; the
    rating comes back as the string of the stored decimal, which reads back
    as exactly that decimal, so that under the declared response model the
    caller receives the same [Movie] from both. *)
Theorem get_after_create_from_cache (fl fl' : faults) (movie : Movie) (w : world)
    (r : pyval) (w1 : world) :
  create_movie fl movie w = (Returned r, w1) →
  ∃ row,
    r = dict row
    ∧ get_movie fl' (row_id row) w1
      = (Returned (json_loads (json_dumps r)),
         log (RedisGet (get_cache_key (row_id row))) w1)
    ∧ json_loads (json_dumps r)
      = PyDict [ ("id", PyInt (row_id row));
                 ("title", PyStr (c_title (row_cols row)));
                 ("director", PyStr (c_director (row_cols row)));
                 ("year", PyInt (c_year (row_cols row)));
                 ("genre", PyStr (c_genre (row_cols row)));
                 ("rating", match c_rating (row_cols row) with
                            | Some d => PyStr (str_Decimal d)
                            | None => PyNone
                            end) ]
    ∧ (∀ d, c_rating (row_cols row) = Some d →
         float_of_str (str_Decimal d) = Some (float_of_Decimal d))
    ∧ response_model (json_loads (json_dumps r)) = response_model r
    ∧ is_Some (response_model r).
Proof.
  intros Hrun.
  destruct (create_movie_returns fl movie w r w1 Hrun) as (c & _ & -> & _ & Hredis).
  exists (mkRow (movies_id_seq w) c). split_and!.
  - done.
  - unfold get_movie. unfold_M. rewrite Hredis.
    rewrite lookup_delete_ne by (symmetry; apply get_cache_key_not_all).
    cbn [row_id]. rewrite lookup_insert_eq. reflexivity.
  - apply loads_dumps_dict.
  - intros d _. apply float_of_str_Decimal.
  - apply response_model_cached.
  - rewrite response_model_dict. by eexists.
Qed.

(** ** The theorems at work on sample data *)



Lemma get_movie_cache_aside_witness :
  get_movie commit_failure 1 sample_world
  = (Returned (PyDict [("id", PyInt 1); ("title", PyStr "Inception");
                       ("director", PyStr "Christopher Nolan"); ("year", PyInt 2010);
                       ("genre", PyStr "Sci-Fi"); ("rating", PyStr "8.8")]),
     log (RedisGet "movie:1") sample_world)
  ∧ (∃ w', get_movie no_faults 7 sample_world
           = (Raised (HTTPException 404 "Movie not found"), w')
       ∧ redis w' = redis sample_world)
  ∧ (∃ w', get_movie no_faults 2 sample_world
           = (Returned (PyDict [("id", PyInt 2); ("title", PyStr "Heat");
                                ("director", PyStr "Michael Mann"); ("year", PyInt 1995);
                                ("genre", PyStr "Crime"); ("rating", PyNone)]), w')
       ∧ redis w' !! "movie:2"
         = Some (mkEntry (JObject [("id", JNum 2); ("title", JString "Heat");
                                   ("director", JString "Michael Mann"); ("year", JNum 1995);
                                   ("genre", JString "Crime"); ("rating", JNull)]) 3600)).
Proof.
  split_and!.
  - apply (proj1 (get_movie_cache_aside commit_failure 1 sample_world)
             (mkEntry (JObject [("id", JNum 1); ("title", JString "Inception");
                                ("director", JString "Christopher Nolan");
                                ("year", JNum 2010); ("genre", JString "Sci-Fi");
                                ("rating", JString "8.8")]) 3600)).
    vm_compute. reflexivity.
  - destruct (proj1 (proj2 (get_movie_cache_aside no_faults 7 sample_world)))
      as (w' & Hrun & Hredis & _);
      [vm_compute; reflexivity..|].
    exists w'. split; [exact Hrun|exact Hredis].
  - destruct (proj2 (proj2 (get_movie_cache_aside no_faults 2 sample_world))
                (mkColumns "Heat" "Michael Mann" 1995 "Crime" None))
      as (w' & Hrun & Hredis & _);
      [vm_compute; reflexivity..|].
    exists w'. split; [exact Hrun|]. rewrite Hredis. apply lookup_insert_eq.
Defined.

Lemma get_movies_batch_hits_then_rows_witness :
  ∃ w',
    get_movies_batch no_faults (mkBatch [2; 7; 1]) sample_world
    = (Returned [PyDict [("id", PyInt 1); ("title", PyStr "Inception");
                         ("director", PyStr "Christopher Nolan"); ("year", PyInt 2010);
                         ("genre", PyStr "Sci-Fi"); ("rating", PyStr "8.8")];
                 PyDict [("id", PyInt 2); ("title", PyStr "Heat");
                         ("director", PyStr "Michael Mann"); ("year", PyInt 1995);
                         ("genre", PyStr "Crime"); ("rating", PyNone)]], w')
    ∧ redis w' !! "movie:2"
      = Some (mkEntry (JObject [("id", JNum 2); ("title", JString "Heat");
                                ("director", JString "Michael Mann"); ("year", JNum 1995);
                                ("genre", JString "Crime"); ("rating", JNull)]) 3600).
Proof.
  destruct (get_movies_batch_hits_then_rows (mkBatch [2; 7; 1]) sample_world)
    as (w' & Hrun & Hcache & _).
  exists w'. split.
  - rewrite Hrun. vm_compute. reflexivity.
  - apply (Hcache (mkRow 2 (mkColumns "Heat" "Michael Mann" 1995 "Crime" None))).
    vm_compute. left.
Defined.

Lemma get_movies_batch_store_access_witness :
  get_movies_batch commit_failure (mkBatch []) sample_world = (Returned [], sample_world)
  ∧ (∃ out new,
       get_movies_batch commit_failure (mkBatch [1; 1]) sample_world
       = (Returned out, log_all new sample_world)
       ∧ filter is_store_event new = [])
  ∧ (∃ out w' new,
       get_movies_batch no_faults (mkBatch [2; 7; 1; 7]) sample_world = (out, w')
       ∧ trace w' = (trace sample_world ++ new)%list
       ∧ filter is_query new = [Execute (SELECT_WHERE_id_ANY [2; 7; 7]) true]).
Proof.
  split_and!.
  - apply (proj1 (get_movies_batch_store_access commit_failure (mkBatch []) sample_world)).
    reflexivity.
  - apply (proj1 (proj2 (get_movies_batch_store_access commit_failure (mkBatch [1; 1])
                           sample_world))).
    + discriminate.
    + vm_compute. reflexivity.
  - destruct (proj1 (proj2 (proj2 (get_movies_batch_store_access no_faults
                                     (mkBatch [2; 7; 1; 7]) sample_world))))
      as (out & w' & new & Hrun & Htrace & Hquery).
    + vm_compute. discriminate.
    + reflexivity.
    + reflexivity.
    + exists out, w', new. split; [exact Hrun|]. split; [exact Htrace|].
      rewrite Hquery. vm_compute. reflexivity.
Defined.

Lemma get_movies_batch_duplicates_witness :
  occurrences 1 (hit_ids (redis sample_world) [1; 2; 1; 2; 1]) = 3%nat
  ∧ length (filter (λ row, row_id row = 2)
              (fetched (table sample_world)
                 (cache_misses (redis sample_world) [1; 2; 1; 2; 1]))) = 1%nat
  ∧ Nat.le (length (filter (λ row, row_id row = 2)
                      (fetched (table sample_world)
                         (cache_misses (redis sample_world) [1; 2; 1; 2; 1])))) 1.
Proof.
  destruct (get_movies_batch_duplicates (mkBatch [1; 2; 1; 2; 1]) sample_world)
    as (w' & _ & Hhit & Hmiss).
  split_and!.
  - etrans; [apply (Hhit 1); vm_compute; eexists; reflexivity|].
    vm_compute. reflexivity.
  - vm_compute. reflexivity.
  - apply (Hmiss 2). vm_compute. reflexivity.
Defined.

Lemma get_after_create_from_cache_witness :
  ∃ w1,
    create_movie no_faults inception empty_world
    = (Returned (PyDict [("id", PyInt 1); ("title", PyStr "Inception");
                         ("director", PyStr "Christopher Nolan"); ("year", PyInt 2010);
                         ("genre", PyStr "Sci-Fi");
                         ("rating", PyDecimal (mkDecimal 88))]), w1)
    ∧ get_movie commit_failure 1 w1
      = (Returned (PyDict [("id", PyInt 1); ("title", PyStr "Inception");
                           ("director", PyStr "Christopher Nolan"); ("year", PyInt 2010);
                           ("genre", PyStr "Sci-Fi"); ("rating", PyStr "8.8")]),
         log (RedisGet "movie:1") w1)
    ∧ response_model (PyDict [("id", PyInt 1); ("title", PyStr "Inception");
                              ("director", PyStr "Christopher Nolan"); ("year", PyInt 2010);
                              ("genre", PyStr "Sci-Fi"); ("rating", PyStr "8.8")])
      = response_model (PyDict [("id", PyInt 1); ("title", PyStr "Inception");
                                ("director", PyStr "Christopher Nolan"); ("year", PyInt 2010);
                                ("genre", PyStr "Sci-Fi");
                                ("rating", PyDecimal (mkDecimal 88))]).
Proof.
  exists (create_movie no_faults inception empty_world).2.
  assert (create_movie no_faults inception empty_world
          = (Returned (PyDict [("id", PyInt 1); ("title", PyStr "Inception");
                               ("director", PyStr "Christopher Nolan"); ("year", PyInt 2010);
                               ("genre", PyStr "Sci-Fi");
                               ("rating", PyDecimal (mkDecimal 88))]),
             (create_movie no_faults inception empty_world).2)) as Hrun.
  { vm_compute. reflexivity. }
  destruct (get_after_create_from_cache no_faults commit_failure inception empty_world _ _ Hrun)
    as (row & Hrow & Hget & Hshape & _ & Hmodel & _).
  assert (row = mkRow 1 (mkColumns "Inception" "Christopher Nolan" 2010 "Sci-Fi"
                                   (Some (mkDecimal 88)))) as ->.
  { destruct row as [i [t d y g [r|]]]; vm_compute in Hrow; congruence. }
  split; [exact Hrun|]. split; [|exact Hmodel].
  etrans; [exact Hget|]. vm_compute. reflexivity.
Defined.



(** C9, counterexample — with the empty string as genre, [get_movies]
    takes the unfiltered path: it reads the all-movies key and, on a miss,
    writes it. *)
Lemma get_movies_empty_genre_uses_cache :
  ∃ out w',
    get_movies no_faults (Some "") sample_world = (out, w')
    ∧ trace w'
      = (trace sample_world
         ++ [RedisGet "movies:all"; Connect true; Execute SELECT_ALL true;
             RedisSetex "movies:all" 3600
               (JArray [JObject [("id", JNum 2); ("title", JString "Heat");
                                 ("director", JString "Michael Mann");
                                 ("year", JNum 1995); ("genre", JString "Crime");
                                 ("rating", JNull)];
                        JObject [("id", JNum 1); ("title", JString "Inception");
                                 ("director", JString "Christopher Nolan");
                                 ("year", JNum 2010); ("genre", JString "Sci-Fi");
                                 ("rating", JString "8.8")]]);
             Commit true; Close])%list
    ∧ redis sample_world !! "movies:all" = None
    ∧ is_Some (redis w' !! "movies:all").
Proof.
  eexists _, _. split; [vm_compute; reflexivity|].
  split; [vm_compute; reflexivity|].
  split; [vm_compute; reflexivity|].
  vm_compute. eexists. reflexivity.
Qed.

Lemma get_movies_by_genre_bypasses_cache_witness :
  ∃ out1 w1 new1 out2 w2 new2,
    get_movies no_faults (Some "Crime") sample_world = (out1, w1)
    ∧ get_movies no_faults (Some "Crime") w1 = (out2, w2)
    ∧ trace w1 = (trace sample_world ++ new1)%list ∧ trace w2 = (trace w1 ++ new2)%list
    ∧ redis w2 = redis sample_world
    ∧ filter is_cache_event new1 = [] ∧ filter is_cache_event new2 = []
    ∧ filter is_query new1 = [Execute (SELECT_WHERE_genre "Crime") true]
    ∧ filter is_query new2 = [Execute (SELECT_WHERE_genre "Crime") true].
Proof.
  destruct (get_movies_by_genre_bypasses_cache no_faults "Crime" sample_world)
    as (out1 & w1 & new1 & out2 & w2 & new2 & H1 & H2 & H3 & H4 & _ & H6 & H7 & H8 & H9).
  { discriminate. }
  destruct (H9 eq_refl) as [Hq1 Hq2].
  exists out1, w1, new1, out2, w2, new2.
  split; [exact H1|]. split; [exact H2|]. split; [exact H3|]. split; [exact H4|].
  split; [exact H6|]. split; [exact H7|]. split; [exact H8|].
  split; [exact Hq1|exact Hq2].
Defined.

(** ** Further properties of the movie service *)

(** *** Keys *)

(** X1 — the cache keys of two different ids differ, and no id's key is
    the all-movies key. *)
Theorem cache_keys_do_not_collide (a b : Z) :
  a ≠ b →
  get_cache_key a ≠ get_cache_key b
  ∧ get_cache_key a ≠ get_all_movies_cache_key.
Proof.
  intros Hne. split.
  - intros Hk. by apply get_cache_key_inj in Hk.
  - apply get_cache_key_not_all.
Qed.

Lemma cache_keys_do_not_collide_witness :
  get_cache_key 1 ≠ get_cache_key 11
  ∧ get_cache_key 1 ≠ get_all_movies_cache_key.
Proof. apply cache_keys_do_not_collide. discriminate. Defined.

(** *** The unfiltered listing *)

(** X2 — the unfiltered [get_movies]: when the all-movies key is in the
    cache its document is deserialised and returned, and the only call made
    is that cache read, whatever the store would do; when the key is absent
    and the store answers, every row of the table is returned and the list
    is put under the key with the fixed TTL, the table being left as it
    was. *)
Theorem get_movies_all_cache_aside (fl : faults) (w : world) :
  (∀ e, redis w !! get_all_movies_cache_key = Some e →
     get_movies fl None w
     = (Returned (json_loads (payload e)), log (RedisGet get_all_movies_cache_key) w))
  ∧ (redis w !! get_all_movies_cache_key = None →
     fl = no_faults →
     ∃ w', get_movies fl None w = (Returned (PyList (dict <$> scan (table w))), w')
       ∧ redis w' = <[get_all_movies_cache_key :=
                       mkEntry (json_dumps (PyList (dict <$> scan (table w)))) CACHE_TTL]>
                    (redis w)
       ∧ table w' = table w
       ∧ trace w' = (trace w ++ [RedisGet get_all_movies_cache_key; Connect true;
                                Execute SELECT_ALL true;
                                RedisSetex get_all_movies_cache_key CACHE_TTL
                                  (json_dumps (PyList (dict <$> scan (table w))));
                                Commit true; Close])%list).
Proof.
  split.
  - intros e He. unfold get_movies. unfold_M. by rewrite He.
  - intros Hmiss ->. unfold get_movies. unfold_M. rewrite Hmiss. simpl.
    eexists. split; [reflexivity|]. simpl. split_and!; [done..|]. norm_trace.
Qed.

Lemma get_movies_all_cache_aside_witness :
  ∃ w1 w2,
    get_movies no_faults None sample_world
    = (Returned (PyList (dict <$> scan (table sample_world))), w1)
    ∧ get_movies (mkFaults true true true) None w1
      = (Returned (json_loads (json_dumps (PyList (dict <$> scan (table sample_world))))), w2)
    ∧ trace w2 = (trace w1 ++ [RedisGet "movies:all"])%list.
Proof.
  destruct (proj2 (get_movies_all_cache_aside no_faults sample_world))
    as (w1 & Hrun & Hredis & _); [vm_compute; reflexivity|reflexivity|].
  eexists w1, _. split; [exact Hrun|]. split.
  - apply (proj1 (get_movies_all_cache_aside (mkFaults true true true) w1)
             (mkEntry (json_dumps (PyList (dict <$> scan (table sample_world)))) CACHE_TTL)).
    rewrite Hredis. apply lookup_insert_eq.
  - reflexivity.
Defined.

(** *** Reading after writing *)


Lemma delete_movie_returns (fl : faults) (movie_id : Z) (w : world)
    (r : pyval) (w1 : world) :
  delete_movie fl movie_id w = (Returned r, w1) →
  is_Some (table w !! movie_id)
  ∧ r = PyDict [("message", PyStr "Movie deleted successfully")]
  ∧ table w1 = delete movie_id (table w)
  ∧ redis w1 = delete get_all_movies_cache_key (delete (get_cache_key movie_id) (redis w)).
Proof.
  unfold delete_movie. unfold_M.
  destruct (connect_fails fl); [done|]. simpl.
  destruct (execute_fails fl); [done|]. simpl.
  destruct (table w !! movie_id) as [c0|] eqn:Hrow; [|done]. simpl.
  destruct (commit_fails fl); [done|]. simpl.
  intros [= <- <-]. by split_and!.
Qed.



(** X4 — once [delete_movie] has returned, [get_movie] on that id finds
    neither a cache entry nor a row: with the store answering it raises the
    404 and writes nothing to the cache. *)
Theorem get_after_delete_not_found (fl fl' : faults) (movie_id : Z) (w : world)
    (r : pyval) (w1 : world) :
  delete_movie fl movie_id w = (Returned r, w1) →
  connect_fails fl' = false → execute_fails fl' = false →
  ∃ w2, get_movie fl' movie_id w1 = (Raised (HTTPException 404 "Movie not found"), w2)
    ∧ redis w2 = redis w1
    ∧ redis w2 !! get_cache_key movie_id = None
    ∧ table w2 !! movie_id = None.
Proof.
  intros Hrun Hc He.
  destruct (delete_movie_returns fl movie_id w r w1 Hrun) as (_ & _ & Htable & Hredis).
  assert (redis w1 !! get_cache_key movie_id = None) as Hmiss.
  { rewrite Hredis, lookup_delete_ne by (symmetry; apply get_cache_key_not_all).
    apply lookup_delete_eq. }
  assert (table w1 !! movie_id = None) as Hgone.
  { rewrite Htable. apply lookup_delete_eq. }
  unfold get_movie. unfold_M. rewrite Hmiss, Hc. simpl. rewrite He. simpl.
  rewrite Hgone. simpl. eexists. split; [reflexivity|]. simpl. by split_and!.
Qed.

Lemma get_after_delete_not_found_witness :
  ∃ w2, get_movie commit_failure 1 (delete_movie no_faults 1 sample_world).2
        = (Raised (HTTPException 404 "Movie not found"), w2)
    ∧ redis w2 !! "movie:1" = None.
Proof.
  destruct (get_after_delete_not_found no_faults commit_failure 1 sample_world
              (PyDict [("message", PyStr "Movie deleted successfully")])
              (delete_movie no_faults 1 sample_world).2)
    as (w2 & Hrun & _ & Hk & _); [vm_compute; reflexivity|reflexivity|reflexivity|].
  exists w2. split; [exact Hrun|exact Hk].
Defined.

Lemma gets_no_connect (ids : list Z) :
  filter is_connect (RedisGet ∘ get_cache_key <$> ids) = [].
Proof.
  induction ids as [|i ids IH]; [done|].
  rewrite fmap_cons, filter_cons_False; [done|]. simpl. tauto.
Qed.

Lemma setex_no_connect (rows : list RealDictRow) :
  filter is_connect (setex_event <$> rows) = [].
Proof.
  induction rows as [|row rows IH]; [done|].
  rewrite fmap_cons, filter_cons_False; [done|]. simpl. tauto.
Qed.

(** *** What every handler does, whatever the store does *)

Section Effects.

#[local] Arguments get_cache_key : simpl never.
#[local] Arguments get_all_movies_cache_key : simpl never.
#[local] Arguments json_dumps : simpl never.
#[local] Arguments json_loads : simpl never.
#[local] Arguments dict : simpl never.
#[local] Arguments scan : simpl never.
#[local] Arguments coerce_columns : simpl never.

Ltac handler_cases :=
  unfold get_movie, get_movies, create_movie, update_movie, delete_movie;
  unfold_M; simpl;
  repeat (case_match; simpl in *; simplify_eq; simpl in * ).

Ltac trace_eq :=
  unfold conn_close, conn_rollback, conn_commit, log_all, log; simpl;
  repeat (rewrite <- app_assoc; simpl); reflexivity.

Lemma for_in_probe_conn (ids : list Z) (s : list pyval * list Z) (w : world) :
  conn (for_in ids probe_cache s w).2 = conn w
  ∧ table (for_in ids probe_cache s w).2 = table w.
Proof. destruct s as [movies uncached]. by rewrite probe_loop. Qed.

Lemma get_movies_batch_effect (fl : faults) (request : BatchMovieRequest) (w : world)
    (out : outcome (list pyval)) (w' : world) :
  get_movies_batch fl request w = (out, w') →
  movies_id_seq w' = movies_id_seq w
  ∧ (conn w = None → conn w' = None)
  ∧ (∀ e, out = Raised e → e = OperationalError)
  ∧ ∃ new, trace w' = (trace w ++ new)%list
           ∧ (length (filter is_connect new) ≤ 1)%nat
           ∧ (length (filter is_query new) ≤ 1)%nat.
Proof.
  unfold get_movies_batch.
  destruct (movie_ids request) as [|i ids'] eqn:Hreq.
  { intros [= <- <-]. split_and!; [done..|]. exists []. rewrite app_nil_r.
    split; [done|]. simpl. split; lia. }
  unfold mbind at 1. unfold M_bind at 1. rewrite probe_loop. cbv iota beta.
  rewrite !app_nil_l.
  destruct (cache_misses (redis w) (i :: ids')) as [|m misses'].
  { intros [= <- <-]. split_and!; [done..|].
    exists (RedisGet ∘ get_cache_key <$> i :: ids'). split; [reflexivity|].
    rewrite gets_no_query, gets_no_connect. simpl. split; lia. }
  set (gets := RedisGet ∘ get_cache_key <$> i :: ids').
  set (q := SELECT_WHERE_id_ANY (m :: misses')).
  rewrite get_db_connection_run.
  destruct (connect_fails fl).
  { intros [= <- <-]. split_and!; [done| done |by intros ? [= <-]|].
    exists (gets ++ [Connect false])%list. split; [trace_eq|].
    rewrite !filter_app. subst gets. rewrite gets_no_query, gets_no_connect.
    simpl. split; lia. }
  unfold mbind at 1. unfold M_bind at 1.
  rewrite (cur_execute_run _ _ (table w)) by done.
  destruct (execute_fails fl).
  { intros [= <- <-]. split_and!; [done| done |by intros ? [= <-]|].
    exists (gets ++ [Connect true; Execute q false; Rollback; Close])%list.
    split; [trace_eq|].
    rewrite !filter_app. subst gets. rewrite gets_no_query, gets_no_connect.
    simpl. split; lia. }
  subst q. cbn [run_query]. cbv iota beta. rewrite cache_fetched_loop.
  set (q := SELECT_WHERE_id_ANY (m :: misses')).
  set (rows := filter (λ r, row_id r ∈ m :: misses') (scan (table w))).
  destruct (commit_fails fl) eqn:Hcf.
  - intros [= <- <-]. split_and!; [done| done |by intros ? [= <-]|].
    exists (gets ++ [Connect true; Execute q true] ++ (setex_event <$> rows)
            ++ [Commit false; Rollback; Close])%list.
    split; [trace_eq|].
    rewrite !filter_app. subst gets.
    rewrite gets_no_query, gets_no_connect, setex_no_query, setex_no_connect.
    simpl. split; lia.
  - unfold conn_commit. rewrite Hcf. intros [= <- <-]. split_and!; [done| done |done|].
    exists (gets ++ [Connect true; Execute q true] ++ (setex_event <$> rows)
            ++ [Commit true; Close])%list.
    split; [trace_eq|].
    rewrite !filter_app. subst gets.
    rewrite gets_no_query, gets_no_connect, setex_no_query, setex_no_connect.
    simpl. split; lia.
Qed.

(** X5 — no handler leaves a connection open: from a world without an
    open connection every operation, whatever the store does to it, ends
    without one. *)
Theorem handlers_close_connection (fl : faults) (o : op) (w : world) :
  conn w = None → conn (run_op fl o w).2 = None.
Proof.
  intros Hconn. destruct o as [i|request| |g|movie|i movie|i|k]; simpl.
  - handler_cases; done.
  - unfold mbind, M_bind.
    destruct (get_movies_batch fl request w) as [out w'] eqn:Hrun.
    apply get_movies_batch_effect in Hrun as (_ & Hc & _).
    destruct out; simpl; by apply Hc.
  - handler_cases; done.
  - handler_cases; done.
  - handler_cases; done.
  - handler_cases; done.
  - handler_cases; done.
  - done.
Qed.

(** X6 — one round trip at most: whatever the operation and whatever the
    store does, a handler opens at most one connection and sends at most
    one statement. *)
Theorem one_round_trip (fl : faults) (o : op) (w : world) :
  ∃ new,
    trace (run_op fl o w).2 = (trace w ++ new)%list
    ∧ (length (filter is_connect new) ≤ 1)%nat
    ∧ (length (filter is_query new) ≤ 1)%nat.
Proof.
  destruct o as [i|request| |g|movie|i movie|i|k]; simpl.
  2: { unfold mbind, M_bind.
       destruct (get_movies_batch fl request w) as [out w'] eqn:Hrun.
       apply get_movies_batch_effect in Hrun as (_ & _ & _ & new & Htr & H1 & H2).
       exists new. by destruct out. }
  7: { exists []. rewrite app_nil_r. simpl. split_and!; [done|lia|lia]. }
  all: handler_cases; eexists; (split; [trace_eq|]); simpl; split; lia.
Qed.

Lemma cache_shape_setex (r : gmap string entry) (i : Z) (doc : json) :
  cache_shape r → cache_shape (<[get_cache_key i := mkEntry doc CACHE_TTL]> r).
Proof.
  intros H k e [[<- <-]|[_ Hk]]%lookup_insert_Some; [|by apply H].
  split; [done|]. right. by exists i.
Qed.

Lemma cache_shape_setex_all (r : gmap string entry) (doc : json) :
  cache_shape r → cache_shape (<[get_all_movies_cache_key := mkEntry doc CACHE_TTL]> r).
Proof.
  intros H k e [[<- <-]|[_ Hk]]%lookup_insert_Some; [|by apply H].
  split; [done|]. by left.
Qed.

Lemma cache_shape_delete (r : gmap string entry) (k : string) :
  cache_shape r → cache_shape (delete k r).
Proof. intros H k' e [_ Hk]%lookup_delete_Some. by apply H. Qed.

Lemma cache_shape_rows (r : gmap string entry) (rows : list RealDictRow) :
  cache_shape r → cache_shape (cache_rows rows r).
Proof.
  revert r. induction rows as [|row rows IH]; intros r H; [done|].
  rewrite cache_rows_cons. by apply IH, cache_shape_setex.
Qed.

Lemma step_cache_shape (fl : faults) (o : op) (w : world) :
  cache_shape (redis w) → cache_shape (redis (run_op fl o w).2).
Proof.
  intros H. destruct o as [i|request| |g|movie|i movie|i|k]; simpl.
  2: { unfold mbind, M_bind.
       destruct (get_movies_batch fl request w) as [out w'] eqn:Hrun.
       apply get_movies_batch_leaves in Hrun as [_ Hr].
       assert (cache_shape (redis w')) as H'.
       { destruct Hr as [->| ->]; [done|]. by apply cache_shape_rows. }
       by destruct out. }
  7: { by apply cache_shape_delete. }
  all: handler_cases;
    auto using cache_shape_setex, cache_shape_setex_all, cache_shape_delete.
Qed.

Lemma run_cache_shape (script : list (faults * op)) (w : world) :
  cache_shape (redis w) → cache_shape (redis (run script w)).
Proof.
  revert w. induction script as [|[fl o] script IH]; intros w H; [done|].
  rewrite run_cons. by apply IH, step_cache_shape.
Qed.

(** X7 — from a cold cache, in every state reached by any history of the
    service under any store failures, every cache entry sits under the
    all-movies key or under the key of some id, and carries the fixed
    time-to-live of 3600 seconds. *)
Theorem cache_holds_two_kinds_of_key (script : list (faults * op)) (w0 : world) :
  redis w0 = ∅ →
  ∀ k e, redis (run script w0) !! k = Some e →
    ttl e = 3600 ∧ (k = "movies:all" ∨ ∃ i : Z, k = "movie:" +:+ pretty i).
Proof.
  intros Hcold. apply run_cache_shape. intros k e. by rewrite Hcold.
Qed.

Lemma cache_rows_keeps (t : gmap Z columns) (r : gmap string entry) (ids : list Z)
    (k : string) (e : entry) :
  r !! k = Some e →
  cache_rows (fetched t (cache_misses r ids)) r !! k = Some e.
Proof.
  intros Hk. rewrite cache_rows_other; [done|].
  intros row [Hin _]%elem_of_fetched <-.
  apply elem_of_cache_misses in Hin as [_ Hmiss]. congruence.
Qed.

(** X8 — reads write nothing to the store and take nothing from the
    cache: [get_movie], [get_movies_batch] and [get_movies], whatever the
    store does, leave the table and the id sequence as they were, and every
    cache entry that was there is still there unchanged (they only add
    entries under keys that were absent). *)
Theorem reads_only_add_to_cache (fl : faults) (o : op) (w : world) :
  is_read o = true →
  table (run_op fl o w).2 = table w
  ∧ movies_id_seq (run_op fl o w).2 = movies_id_seq w
  ∧ ∀ k e, redis w !! k = Some e → redis (run_op fl o w).2 !! k = Some e.
Proof.
  intros Hread. destruct o as [i|request| |g|movie|i movie|i|k]; try done; simpl.
  2: { unfold mbind, M_bind.
       destruct (get_movies_batch fl request w) as [out w'] eqn:Hrun.
       pose proof (get_movies_batch_leaves _ _ _ _ _ Hrun) as [Ht Hr].
       apply get_movies_batch_effect in Hrun as (Hseq & _).
       assert (∀ k e, redis w !! k = Some e → redis w' !! k = Some e) as Hkeep.
       { intros k e Hk. destruct Hr as [->| ->]; [done|]. by apply cache_rows_keeps. }
       by destruct out. }
  all: handler_cases; split_and!; try done;
    repeat match goal with H : _ <$> _ = None |- _ => apply fmap_None in H end;
    intros k' e' Hk'; by rewrite lookup_insert_ne by congruence.
Qed.

(** X9 — a mutation touches one row and two keys: whatever the store
    does, [create_movie], [update_movie] and [delete_movie] leave every
    other row of the table as it was, and every cache entry other than the
    one of that id and the all-movies one. *)
Theorem mutation_touches_one_row (fl : faults) (o : op) (w : world) :
  is_mutation o = true →
  (∀ j, j ≠ target o w → table (run_op fl o w).2 !! j = table w !! j)
  ∧ (∀ k, k ≠ get_cache_key (target o w) → k ≠ get_all_movies_cache_key →
       redis (run_op fl o w).2 !! k = redis w !! k).
Proof.
  intros Hmut. destruct o as [i|request| |g|movie|i movie|i|k]; try done; simpl.
  all: handler_cases; split; try done;
    intros; simplify_eq; simpl;
    by rewrite ?lookup_delete_ne, ?lookup_insert_ne by congruence.
Qed.


End Effects.

(** *** Serialisation *)






(** *** What a create stores *)







(** *** A batch asked twice *)

Lemma cache_misses_nil (r : gmap string entry) (ids : list Z) :
  (∀ i, i ∈ ids → is_Some (r !! get_cache_key i)) → cache_misses r ids = [].
Proof.
  intros H. apply elem_of_nil_inv. intros i [Hin Hmiss]%elem_of_cache_misses.
  destruct (H i Hin) as [e He]. congruence.
Qed.

(** X13 — a batch warms the cache: when every requested id is in the
    cache or in the table, a batch that the store answers leaves all of
    them cached, so the same request again is answered by cache reads
    alone, whatever the store would do, with one record per requested id,
    duplicates included. *)
Theorem batch_warms_cache (request : BatchMovieRequest) (w : world) :
  movie_ids request ≠ [] →
  (∀ i, i ∈ movie_ids request →
     is_Some (redis w !! get_cache_key i) ∨ is_Some (table w !! i)) →
  ∃ out w1,
    get_movies_batch no_faults request w = (Returned out, w1)
    ∧ ∀ fl, ∃ out2,
        get_movies_batch fl request w1
        = (Returned out2, log_all (RedisGet ∘ get_cache_key <$> movie_ids request) w1)
        ∧ length out2 = length (movie_ids request).
Proof.
  intros Hids Hknown.
  destruct (get_movies_batch_answer request w) as (w1 & Hrun & Hcached).
  eexists _, w1. split; [exact Hrun|].
  assert (∀ i, i ∈ movie_ids request → is_Some (redis w1 !! get_cache_key i)) as Hall.
  { intros i Hin.
    destruct (redis w !! get_cache_key i) as [e|] eqn:Hi.
    - exists e. destruct (get_movies_batch_leaves _ _ _ _ _ Hrun) as [_ [->| ->]]; [done|].
      by apply cache_rows_keeps.
    - destruct (Hknown i Hin) as [[e He]|[c Hc]]; [congruence|].
      eexists. apply (Hcached (mkRow i c)). apply elem_of_fetched. split; [|done].
      by apply elem_of_cache_misses. }
  intros fl. eexists. split.
  - apply get_movies_batch_hits_only; [done|]. by apply cache_misses_nil.
  - rewrite <- (length_hits_misses (redis w1) (movie_ids request)).
    rewrite (cache_misses_nil (redis w1)) by done. simpl. lia.
Qed.

Lemma batch_warms_cache_witness :
  ∃ out w1 out2,
    get_movies_batch no_faults (mkBatch [2; 2]) sample_world = (Returned out, w1)
    ∧ length out = 1%nat
    ∧ get_movies_batch (mkFaults true true true) (mkBatch [2; 2]) w1
      = (Returned out2, log_all [RedisGet "movie:2"; RedisGet "movie:2"] w1)
    ∧ length out2 = 2%nat.
Proof.
  destruct (batch_warms_cache (mkBatch [2; 2]) sample_world) as (out & w1 & Hrun & Hnext).
  { discriminate. }
  { intros i Hin. right. simpl in Hin.
    assert (i = 2) as -> by (rewrite !elem_of_cons in Hin;
                             destruct Hin as [?|[?|Hin]]; [done|done|by apply elem_of_nil in Hin]).
    vm_compute. eexists. reflexivity. }
  destruct (Hnext (mkFaults true true true)) as (out2 & Hrun2 & Hlen2).
  exists out, w1, out2. split; [exact Hrun|]. split.
  - assert (get_movies_batch no_faults (mkBatch [2; 2]) sample_world
            = (Returned [dict (mkRow 2 (mkColumns "Heat" "Michael Mann" 1995 "Crime" None))],
               (get_movies_batch no_faults (mkBatch [2; 2]) sample_world).2)) as Hval.
    { vm_compute. reflexivity. }
    rewrite Hval in Hrun. injection Hrun as <- _. reflexivity.
  - split; [exact Hrun2|exact Hlen2].
Defined.

(** *** What a read returns in a reachable state *)


(** *** The filtered listing *)



(** *** The connection context manager *)



(** ** The movie service seen from the watchlist service *)

Lemma get_movie_answer (movie_id : Z) (w : world) :
  per_id_coherent w →
  respond (get_movie no_faults movie_id w).1
  = match table w !! movie_id with
    | Some c => mkResponse 200 (Some (Movie_of_row movie_id c))
    | None => mkResponse 404 None
    end.
Proof.
  intros Hcoh. unfold get_movie. unfold_M.
  destruct (redis w !! get_cache_key movie_id) as [e|] eqn:Hk; simpl.
  - destruct (Hcoh movie_id e Hk) as (c & -> & ->).
    unfold respond. by rewrite response_model_cached, response_model_dict.
  - destruct (table w !! movie_id) as [c|]; simpl; [|done].
    unfold respond. by rewrite response_model_dict.
Qed.

(** X17 — the existence check of the watchlist service is exact when
    nothing fails: with the network delivering, the store answering and the
    cache coherent with the table, [validate_movie_exists] says yes exactly
    for the ids that have a row, and [get_movie_details] returns exactly
    that row as a [Movie], or nothing for an id without one. *)
Theorem movie_lookup_over_http_is_exact (movie_id : Z) (w : world) :
  per_id_coherent w →
  ((validate_movie_exists Delivered no_faults movie_id w).1 = true
   ↔ is_Some (table w !! movie_id))
  ∧ (get_movie_details Delivered no_faults movie_id w).1
    = Movie_of_row movie_id <$> table w !! movie_id.
Proof.
  intros Hcoh. unfold validate_movie_exists, get_movie_details, client_get_movie.
  rewrite get_movie_answer by done.
  destruct (table w !! movie_id) as [c|]; simpl; (split; [|done]).
  - split; [by eexists|done].
  - split; [done|by intros [? ?]].
Qed.

Lemma movie_lookup_over_http_is_exact_witness :
  (validate_movie_exists Delivered no_faults 2 sample_world).1 = true
  ∧ (get_movie_details Delivered no_faults 7 sample_world).1 = None.
Proof.
  assert (per_id_coherent sample_world) as Hcoh.
  { apply run_per_id_coherent; [|intros i e; done].
    intros fl o Hin Hmut. rewrite !elem_of_cons in Hin.
    destruct Hin as [Hin|[Hin|[Hin|Hin]]];
      try (injection Hin as -> ->; first [reflexivity | discriminate Hmut]).
    by apply elem_of_nil in Hin. }
  split.
  - apply (proj1 (movie_lookup_over_http_is_exact 2 sample_world Hcoh)).
    vm_compute. eexists. reflexivity.
  - rewrite (proj2 (movie_lookup_over_http_is_exact 7 sample_world Hcoh)).
    vm_compute. reflexivity.
Defined.

(** X18 — the existence check fails closed: when the request does not
    come back, or when the id is not cached and the store cannot be
    reached, [validate_movie_exists] says no and [get_movie_details]
    returns nothing, whether or not the movie has a row. *)
Theorem movie_lookup_fails_closed (net : network) (fl : faults) (movie_id : Z) (w : world) :
  net ≠ Delivered
  ∨ (redis w !! get_cache_key movie_id = None
     ∧ (connect_fails fl = true ∨ execute_fails fl = true ∨ commit_fails fl = true)) →
  (validate_movie_exists net fl movie_id w).1 = false
  ∧ (get_movie_details net fl movie_id w).1 = None.
Proof.
  unfold validate_movie_exists, get_movie_details, client_get_movie.
  intros [Hnet|[Hmiss Hdown]].
  - by destruct net.
  - destruct net; [|done..]. unfold get_movie. unfold_M. rewrite Hmiss. simpl.
    destruct (connect_fails fl) eqn:Hc; simpl; [done|].
    destruct (execute_fails fl) eqn:He; simpl; [done|].
    destruct (table w !! movie_id); simpl; [|done].
    destruct (commit_fails fl) eqn:Hcf; simpl; [done|].
    by destruct Hdown as [?|[?|?]].
Qed.

Lemma movie_lookup_fails_closed_witness :
  is_Some (table sample_world !! 2)
  ∧ (validate_movie_exists Delivered (mkFaults true false false) 2 sample_world).1 = false
  ∧ (get_movie_details ResponseLost no_faults 1 sample_world).1 = None.
Proof.
  split; [vm_compute; eexists; reflexivity|]. split.
  - apply (movie_lookup_fails_closed Delivered (mkFaults true false false) 2 sample_world).
    right. split; [vm_compute; reflexivity|]. by left.
  - apply (movie_lookup_fails_closed ResponseLost no_faults 1 sample_world).
    left. discriminate.
Defined.

(** *** The further properties on sample data *)

Lemma handlers_close_connection_witness :
  conn empty_world = None
  ∧ conn (run_op commit_failure (Create inception) empty_world).2 = None.
Proof.
  split; [reflexivity|]. apply handlers_close_connection. reflexivity.
Defined.

Lemma cache_holds_two_kinds_of_key_witness :
  ttl (mkEntry (JObject [("id", JNum 1); ("title", JString "Inception");
                         ("director", JString "Christopher Nolan"); ("year", JNum 2010);
                         ("genre", JString "Sci-Fi"); ("rating", JString "9.0")]) 3600)
  = 3600
  ∧ ("movie:1" = "movies:all" ∨ ∃ i : Z, "movie:1" = "movie:" +:+ pretty i).
Proof.
  apply (cache_holds_two_kinds_of_key sample_script empty_world eq_refl).
  vm_compute. reflexivity.
Defined.

Lemma reads_only_add_to_cache_witness :
  is_read (GetBatch (mkBatch [2; 7])) = true
  ∧ table (run_op commit_failure (GetBatch (mkBatch [2; 7])) sample_world).2
    = table sample_world
  ∧ redis (run_op commit_failure (GetBatch (mkBatch [2; 7])) sample_world).2 !! "movie:1"
    = redis sample_world !! "movie:1".
Proof.
  split; [reflexivity|].
  destruct (reads_only_add_to_cache commit_failure (GetBatch (mkBatch [2; 7])) sample_world
              eq_refl) as (Htable & _ & Hkeep).
  split; [exact Htable|].
  assert (is_Some (redis sample_world !! "movie:1")) as [e He]
    by (vm_compute; eexists; reflexivity).
  rewrite He. apply Hkeep. exact He.
Defined.

Lemma mutation_touches_one_row_witness :
  is_mutation (Delete 1) = true
  ∧ table (run_op no_faults (Delete 1) sample_world).2 !! 2 = table sample_world !! 2
  ∧ redis (run_op commit_failure (Update 2 inception_rerated) sample_world).2 !! "movie:1"
    = redis sample_world !! "movie:1".
Proof.
  split; [reflexivity|]. split.
  - apply (proj1 (mutation_touches_one_row no_faults (Delete 1) sample_world eq_refl)).
    discriminate.
  - apply (proj2 (mutation_touches_one_row commit_failure (Update 2 inception_rerated)
                    sample_world eq_refl)).
    + vm_compute. discriminate.
    + discriminate.
Defined.


